(** * The batch-assembling DataLoader of [src/data/dataloader.py]

    A shallow embedding of the [DataLoader] class: the index traversal
    ([range] or a permutation), the accumulation loop of [__iter__] with
    its [drop_last] policy, the re-grouping of records
    ([combine_batch_dicts]), the identifier encoding ([run_id_to_int]),
    the per-field conversion ([batch_to_tensor]) and [__len__].

    Python exceptions are values of [exn] carried by [result]; a
    generator is the finite trace of what one full pass produces. *)

From Stdlib Require Import List String Ascii Bool Arith ZArith QArith Qround
  Lia Permutation DecimalString DecimalN DecimalPos.
Import ListNotations.

Local Open Scope string_scope.
Local Open Scope list_scope.
Local Open Scope Z_scope.

Set Implicit Arguments.

(** ** Exceptions and fallible computations *)

Inductive exn : Type :=
| ValueError
| TypeError
| AttributeError
| RuntimeError
| IndexError
| ZeroDivisionError.

Inductive result (A : Type) : Type :=
| Ok (a : A)
| Err (e : exn).

Arguments Ok {A} a.
Arguments Err {A} e.

Definition bind {A B : Type} (r : result A) (k : A -> result B) : result B :=
  match r with
  | Ok a => k a
  | Err e => Err e
  end.

Notation "x <- r ;; k" := (bind r (fun x => k))
  (at level 61, r at next level, right associativity).

Definition is_ok {A : Type} (r : result A) : bool :=
  match r with Ok _ => true | Err _ => false end.

(** [[f(x) for x in xs]]: left to right, the first exception aborts. *)
Fixpoint list_comprehension {A B : Type} (f : A -> result B) (xs : list A)
  : result (list B) :=
  match xs with
  | [] => Ok []
  | x :: xs' =>
      y <- f x ;;
      ys <- list_comprehension f xs' ;;
      Ok (y :: ys)
  end.

(** ** Python strings: [str.split] on a one-character separator and [int]

    A [string] stands for a [str] whose code points are below 256, one
    character each. *)

Module PyStr.

(** [s.split(sep)]: the segments between occurrences of [sep]; never
    an empty list. *)
Fixpoint split (sep : ascii) (s : string) : list string :=
  match s with
  | EmptyString => [EmptyString]
  | String c s' =>
      if Ascii.eqb c sep then EmptyString :: split sep s'
      else match split sep s' with
           | seg :: segs => String c seg :: segs
           | [] => [String c EmptyString]
           end
  end.

(** [xs[-1]] *)
Definition last_item {A : Type} (xs : list A) : result A :=
  match rev xs with
  | x :: _ => Ok x
  | [] => Err IndexError
  end.

(** The characters [int] ignores at both ends of its argument: tab to
    carriage return and the space, and of the code points from 128 to
    255 the two white-space ones, next-line and no-break space. *)
Definition is_space (c : ascii) : bool :=
  let n := nat_of_ascii c in
  ((9 <=? n) && (n <=? 13) || (n =? 32) || (n =? 133) || (n =? 160))%nat.

Fixpoint lstrip (s : string) : string :=
  match s with
  | String c s' => if is_space c then lstrip s' else s
  | EmptyString => EmptyString
  end.

Fixpoint rstrip (s : string) : string :=
  match s with
  | EmptyString => EmptyString
  | String c s' =>
      match rstrip s' with
      | EmptyString => if is_space c then EmptyString else String c EmptyString
      | t => String c t
      end
  end.

Definition strip (s : string) : string := rstrip (lstrip s).

Definition digit_of (c : ascii) : option Z :=
  let n := nat_of_ascii c in
  if ((48 <=? n) && (n <=? 57))%nat then Some (Z.of_nat n - 48) else None.

(** Value of a run of decimal digits read left to right, starting from
    the accumulator [acc]; [None] at the first other character. *)
Fixpoint digits_from (acc : Z) (s : string) : option Z :=
  match s with
  | EmptyString => Some acc
  | String c s' =>
      match digit_of c with
      | Some d => digits_from (10 * acc + d) s'
      | None => None
      end
  end.

Definition decimal (s : string) : option Z :=
  match s with
  | EmptyString => None
  | _ => digits_from 0 s
  end.

(** [int(s)] for a [str] in base ten: surrounding whitespace, one
    optional sign, then at least one digit.  Digit grouping with
    underscores cannot occur in a segment of [split("_")], and the
    interpreter's cap on the length of a literal is left out. *)
Definition int (s : string) : result Z :=
  let t := strip s in
  let (negative, body) :=
    match t with
    | String c r =>
        if Ascii.eqb c "-" then (true, r)
        else if Ascii.eqb c "+" then (false, r)
        else (false, t)
    | EmptyString => (false, t)
    end in
  match decimal body with
  | Some n => Ok (if negative then - n else n)
  | None => Err ValueError
  end.

End PyStr.

(** ** Values, tensors and their constructors *)

(** A dense array: its shape and its entries in row-major order.  The
    entries are single-precision numbers, each modelled by the number
    it denotes. *)
Record Tensor : Type := mkTensor { shape : list nat; data : list Q }.

(** The values a record can hold: a [torch.Tensor]; a numeric array
    that is not a [Tensor], namely a [numpy.ndarray] of single-precision
    numbers in its own contiguous layout, the kind [Tensor(...)] copies
    entry by entry; or a [str]. *)
Inductive value : Type :=
| VTensor (t : Tensor)
| VArray (shape : list nat) (data : list Q)
| VStr (s : string).

Module Torch.

(** The argument of [stack] has to be a sequence of tensors. *)
Definition expect_tensor (v : value) : result Tensor :=
  match v with
  | VTensor t => Ok t
  | _ => Err TypeError
  end.

Definition same_shape (s1 s2 : list nat) : bool :=
  if list_eq_dec Nat.eq_dec s1 s2 then true else false.

(** [torch.stack(tensors)] along a new leading axis: every element a
    tensor, at least one of them, all of one shape. *)
Definition stack (values : list value) : result Tensor :=
  ts <- list_comprehension expect_tensor values ;;
  match ts with
  | [] => Err RuntimeError
  | t0 :: _ =>
      if forallb (fun t => same_shape (shape t) (shape t0)) ts
      then Ok (mkTensor (List.length ts :: shape t0) (List.concat (map data ts)))
      else Err RuntimeError
  end.

(** [Tensor(v)] for a value that is not a tensor yet: a
    single-precision array is copied as it is, a [str] is refused. *)
Definition of_value (v : value) : result Tensor :=
  match v with
  | VTensor t => Ok t
  | VArray sh d => Ok (mkTensor sh d)
  | VStr _ => Err TypeError
  end.

(** The single-precision number nearest to the integer [n], a tie
    going to the even significand of 24 bits. *)
Definition round_to_float32 (n : Z) : Z :=
  let a := Z.abs n in
  let e := Z.log2 a - 23 in
  if e <=? 0 then n
  else
    let q := a / 2 ^ e in
    let r := a mod 2 ^ e in
    let half := 2 ^ (e - 1) in
    let q' :=
      if r <? half then q
      else if half <? r then q + 1
      else if Z.even q then q else q + 1 in
    Z.sgn n * (q' * 2 ^ e).

(** One Python integer stored in a single-precision tensor.  Up to
    [2 ^ 53] it passes unchanged through a double and is then rounded;
    beyond, the constructor is taken to refuse it, as the releases of
    the library do that guard the unpacking of an integer against a
    loss of precision. *)
Definition float32_of_int (n : Z) : result Q :=
  if Z.abs n <=? 2 ^ 53 then Ok (inject_Z (round_to_float32 n))
  else Err RuntimeError.

(** [Tensor([n1, n2, ...]).float()] for a list of Python integers. *)
Definition of_ints (ns : list Z) : result Tensor :=
  entries <- list_comprehension float32_of_int ns ;;
  Ok (mkTensor [List.length ns] entries).

End Torch.

(** ** Dictionaries, in insertion order *)

Definition dict (V : Type) : Type := list (string * V).

Definition keys {V : Type} (d : dict V) : list string := map fst d.

Fixpoint dict_get {V : Type} (key : string) (d : dict V) : option V :=
  match d with
  | [] => None
  | (k, v) :: d' => if String.eqb key k then Some v else dict_get key d'
  end.

(** [key in d] *)
Definition dict_mem {V : Type} (key : string) (d : dict V) : bool :=
  match dict_get key d with Some _ => true | None => false end.

(** [d[key] = v]: an existing key keeps its position, a new one goes
    last. *)
Fixpoint dict_set {V : Type} (key : string) (v : V) (d : dict V) : dict V :=
  match d with
  | [] => [(key, v)]
  | (k, w) :: d' =>
      if String.eqb key k then (k, v) :: d' else (k, w) :: dict_set key v d'
  end.

(** A record of the dataset: field name to value. *)
Definition record : Type := dict value.

(** A dictionary object holds each key once. *)
Definition well_keyed {V : Type} (d : dict V) : Prop := NoDup (keys d).

(** ** The helpers of [__iter__] *)

(** One pass of the inner loop of [combine_batch_dicts]:
    [if key not in batch_dict: batch_dict[key] = []] and then
    [batch_dict[key].append(value)]. *)
Definition combine_item (batch_dict : dict (list value)) (item : string * value)
  : dict (list value) :=
  let (key, v) := item in
  let batch_dict :=
    if negb (dict_mem key batch_dict) then dict_set key [] batch_dict
    else batch_dict in
  match dict_get key batch_dict with
  | Some values => dict_set key (values ++ [v]) batch_dict
  | None => batch_dict
  end.

Definition combine_batch_dicts (batch : list record) : dict (list value) :=
  fold_left (fun batch_dict data_dict => fold_left combine_item data_dict batch_dict)
    batch [].

(** [int(run_id.split("_")[-1])]; a value that is not a [str] has no
    such [split]. *)
Definition run_id_to_int (run_id : value) : result Z :=
  match run_id with
  | VStr s =>
      seg <- PyStr.last_item (PyStr.split "_" s) ;;
      PyStr.int seg
  | VTensor _ => Err TypeError
  | VArray _ _ => Err AttributeError
  end.

(** The [try: values = stack(...)] with its bare [except: values = values[0]]. *)
Definition stack_or_first (values : list value) : result value :=
  match Torch.stack values with
  | Ok t => Ok (VTensor t)
  | Err _ =>
      match values with
      | v :: _ => Ok v
      | [] => Err IndexError
      end
  end.

(** The body of the loop of [batch_to_tensor] for one key; the final
    [match] is the test [isinstance(values, Tensor)]. *)
Definition field_to_tensor (key : string) (values : list value) : result Tensor :=
  if String.eqb key "run_id" then
    ids <- list_comprehension run_id_to_int values ;;
    Torch.of_ints ids
  else
    v <- stack_or_first values ;;
    match v with
    | VTensor t => Ok t
    | _ => Torch.of_value v
    end.

Fixpoint batch_to_tensor_from (tensor_batch : dict Tensor)
  (items : dict (list value)) : result (dict Tensor) :=
  match items with
  | [] => Ok tensor_batch
  | (key, values) :: rest =>
      t <- field_to_tensor key values ;;
      batch_to_tensor_from (dict_set key t tensor_batch) rest
  end.

Definition batch_to_tensor (batch : dict (list value)) : result (dict Tensor) :=
  batch_to_tensor_from [] batch.

(** ** Generators

    What a generator does over one full pass: the values it yields, in
    order, until it returns ([Stop]) or an exception leaves it
    ([Raise]). *)

Inductive gen (B : Type) : Type :=
| Stop
| Yield (b : B) (rest : gen B)
| Raise (e : exn).

Arguments Stop {B}.
Arguments Yield {B} b rest.
Arguments Raise {B} e.

Fixpoint yielded {B : Type} (g : gen B) : list B :=
  match g with
  | Yield b rest => b :: yielded rest
  | _ => []
  end.

(** The exception that ended the pass, if one did. *)
Fixpoint raised {B : Type} (g : gen B) : option exn :=
  match g with
  | Stop => None
  | Yield _ rest => raised rest
  | Raise e => Some e
  end.

Definition finished {B : Type} (g : gen B) : bool :=
  match raised g with None => true | Some _ => false end.

(** [yield e]: evaluating [e] may raise. *)
Definition yield_ {B : Type} (r : result B) (rest : gen B) : gen B :=
  match r with
  | Ok b => Yield b rest
  | Err e => Raise e
  end.

(** ** The accumulation loop of [__iter__]

    The loop is written once, over what [self.dataset[index]] returns
    and what is done with a full group, so that the same code can be
    run on the records and, for observation, on the bare indices. *)

Section Loop.

Variables A B : Type.
Variable getitem : nat -> result A.
Variable convert : list A -> result B.
Variable batch_size : Z.
Variable drop_last : bool.

Fixpoint iter_loop (index_iterator : list nat) (batch : list A) : gen B :=
  match index_iterator with
  | index :: rest =>
      match getitem index with
      | Err e => Raise e
      | Ok r =>
          let batch := batch ++ [r] in
          if Z.of_nat (List.length batch) =? batch_size
          then yield_ (convert batch) (iter_loop rest [])
          else iter_loop rest batch
      end
  | [] =>
      if (0 <? Z.of_nat (List.length batch)) && negb drop_last
      then yield_ (convert batch) Stop
      else Stop
  end.

(** Conversions run one after the other, as the loop runs them. *)
Fixpoint yield_all (groups : list (list A)) : gen B :=
  match groups with
  | [] => Stop
  | g :: gs => yield_ (convert g) (yield_all gs)
  end.

End Loop.

(** ** The class *)

Record DataLoader : Type := __init__ {
  dataset : list record;
  batch_size : Z;
  shuffle : bool;
  drop_last : bool
}.

(** [len(self.dataset)] *)
Definition dataset_len (self : DataLoader) : nat := List.length (dataset self).

(** [self.dataset[index]] *)
Definition dataset_getitem (self : DataLoader) (index : nat) : result record :=
  match nth_error (dataset self) index with
  | Some r => Ok r
  | None => Err IndexError
  end.

(** What [np.random.permutation(n)] may return. *)
Definition random_permutation (n : nat) (p : list nat) : Prop :=
  Permutation p (seq 0 n).

(** The order of traversal, [permutation] being the array drawn when
    [shuffle] is set. *)
Definition index_iterator (self : DataLoader) (permutation : list nat) : list nat :=
  if shuffle self then permutation else seq 0 (dataset_len self).

(** [batch_to_tensor(combine_batch_dicts(batch))] *)
Definition convert_group (batch : list record) : result (dict Tensor) :=
  batch_to_tensor (combine_batch_dicts batch).

Definition __iter__ (self : DataLoader) (permutation : list nat)
  : gen (dict Tensor) :=
  iter_loop (dataset_getitem self) convert_group
    (batch_size self) (drop_last self)
    (index_iterator self permutation) [].

(** The groups of indices the loop closes, in order: the same loop, run
    on the indices themselves, from a group [acc] already begun. *)
Definition groups_from (batch_size : Z) (drop_last : bool)
  (order acc : list nat) : list (list nat) :=
  yielded (iter_loop (fun i => Ok i) (fun g => Ok g)
             batch_size drop_last order acc).

Definition index_groups (self : DataLoader) (permutation : list nat)
  : list (list nat) :=
  groups_from (batch_size self) (drop_last self)
    (index_iterator self permutation) [].

(** The records behind a group of indices. *)
Definition records_of (self : DataLoader) (g : list nat) : list record :=
  map (fun i => nth i (dataset self) []) g.

(** [a // b] and [a / b] on integers. *)
Definition floordiv (a b : Z) : result Z :=
  if b =? 0 then Err ZeroDivisionError else Ok (a / b).

Definition truediv (a b : Z) : result Q :=
  if b =? 0 then Err ZeroDivisionError else Ok (inject_Z a / inject_Z b)%Q.

(** [__len__]; the quotient handed to [np.ceil] is the exact one. *)
Definition __len__ (self : DataLoader) : result Z :=
  if drop_last self then
    floordiv (Z.of_nat (dataset_len self)) (batch_size self)
  else
    q <- truediv (Z.of_nat (dataset_len self)) (batch_size self) ;;
    Ok (Qceiling q).

(** ** [src/postprocessing/visualization.py]

    Of the plotting module the parts that neither draw nor run the
    network: the dataclass [DataToVisualize] with its [__post_init__],
    and the loop of [visualizations] that numbers the pictures and
    decides when to stop. *)

Module Visualization.

(** What the keyword dictionaries of a plot hold: a colour map name, an
    extent, the levels [np.arange(start, stop, step)], a list of
    levels, or a number. *)
Inductive argval : Type :=
| ArgStr (s : string)
| ArgExtent (left right bottom top : Z)
| ArgArange (start stop step : Q)
| ArgLevels (levels : list Q)
| ArgNumber (q : Q).

(** [int(q)] for a finite number: towards zero. *)
Definition int_of_number (q : Q) : Z :=
  if Qle_bool 0 q then Qfloor q else Qceiling q.

Record DataToVisualize (A : Type) : Type := set_fields {
  data : A;
  name : string;
  extent_highs : Q * Q;
  imshowargs : dict argval;
  contourfargs : dict argval;
  contourargs : dict argval
}.

Arguments set_fields {A} data name extent_highs imshowargs contourfargs contourargs.
Arguments data {A} d.
Arguments name {A} d.
Arguments extent_highs {A} d.
Arguments imshowargs {A} d.
Arguments contourfargs {A} d.
Arguments contourargs {A} d.

(** [np.round(q, decimals)]: to the nearest multiple of
    [10 ** -decimals], a tie going to the even one. *)
Definition round_half_even (q : Q) : Z :=
  let f := Qfloor q in
  match Qcompare (q - inject_Z f) (1 # 2) with
  | Lt => f
  | Gt => f + 1
  | Eq => if Z.even f then f else f + 1
  end.

Definition np_round (q : Q) (decimals : nat) : Q :=
  Qred (inject_Z (round_half_even (q * inject_Z (10 ^ Z.of_nat decimals)))
        / inject_Z (10 ^ Z.of_nat decimals)).

Definition T_gwf : Q := 10.6.

Definition __post_init__ {A : Type} (self : DataToVisualize A) : DataToVisualize A :=
  let extent :=
    ArgExtent 0 (int_of_number (fst (extent_highs self)))
      (int_of_number (snd (extent_highs self))) 0 in
  let imshowargs := [("cmap", ArgStr "RdBu_r"); ("extent", extent)] in
  let contourfargs :=
    [("levels", ArgArange 10.4 16 0.25); ("cmap", ArgStr "RdBu_r");
     ("extent", extent)] in
  let contourargs :=
    [("levels", ArgLevels [np_round (T_gwf + 1) 1]); ("cmap", ArgStr "Pastel1");
     ("extent", extent)] in
  let name :=
    if String.eqb (name self) "Liquid Pressure [Pa]" then "Pressure in [Pa]"
    else if String.eqb (name self) "Material ID"
         then "Position of the heatpump in [-]"
    else if String.eqb (name self) "Permeability X [m^2]"
         then "Permeability in [m$^2$]"
    else if String.eqb (name self) "SDF" then "SDF-transformed position in [-]"
    else name self in
  set_fields (data self) name (extent_highs self)
    imshowargs contourfargs contourargs.

(** [DataToVisualize(data, name, extent_highs, imshowargs, contourfargs,
    contourargs)]: the fields are set, then [__post_init__] runs. *)
Definition __init__ {A : Type} (data : A) (name : string) (extent_highs : Q * Q)
  (imshowargs contourfargs contourargs : dict argval) : DataToVisualize A :=
  __post_init__
    (set_fields data name extent_highs imshowargs contourfargs contourargs).

(** [amount_datapoints_to_visu]: an integer, or [math.inf]. *)
Inductive amount : Type :=
| Inf
| Count (n : Z).

(** [amount > n] *)
Definition amount_exceeds (a : amount) (n : Z) : bool :=
  match a with
  | Inf => true
  | Count m => n <? m
  end.

(** [f"{plot_path}_{current_id}"] *)
Definition name_pic (plot_path : string) (current_id : nat) : string :=
  (plot_path ++ "_" ++ NilZero.string_of_uint (Nat.to_uint current_id))%string.

(** How the walk over a batch, or over the batches, ends: at the end of
    what there is, by the [return], or by an exception. *)
Inductive loop_end : Type :=
| Exhausted (current_id : nat)
| Returned
| Raised (e : exn).

Section Loop.

Variable datapoint : Type.

(** Lines 75 to 90 for one datapoint and its picture name: inference,
    de-normalisation, and [plot_datafields]. *)
Variable plot_datapoint : string -> datapoint -> result unit.

Variable amount_datapoints_to_visu : Z.
Variable plot_path : string.

(** [for datapoint_id in range(len_batch)]; the pictures made are
    logged with their names. *)
Fixpoint visit_batch (batch : list datapoint) (current_id : nat)
  : list (string * datapoint) * loop_end :=
  match batch with
  | [] => ([], Exhausted current_id)
  | d :: rest =>
      match plot_datapoint (name_pic plot_path current_id) d with
      | Err e => ([], Raised e)
      | Ok _ =>
          if Z.of_nat current_id >=? amount_datapoints_to_visu - 1
          then ([(name_pic plot_path current_id, d)], Returned)
          else
            let (log, ending) := visit_batch rest (S current_id) in
            ((name_pic plot_path current_id, d) :: log, ending)
      end
  end.

(** [for inputs, labels in dataloader] *)
Fixpoint visit_batches (batches : list (list datapoint)) (current_id : nat)
  : list (string * datapoint) * loop_end :=
  match batches with
  | [] => ([], Exhausted current_id)
  | batch :: rest =>
      match visit_batch batch current_id with
      | (log, Exhausted current_id) =>
          let (log', ending) := visit_batches rest current_id in
          (log ++ log', ending)
      | (log, ending) => (log, ending)
      end
  end.

End Loop.

(** [visualizations]: the pictures made, in order, and the exception
    that ended the call if one did.  [dataset_len] is
    [len(dataloader.dataset)] and [batches] what one pass over
    [dataloader] gives. *)
Definition visualizations {datapoint : Type}
  (plot_datapoint : string -> datapoint -> result unit)
  (dataset_len : nat) (batches : list (list datapoint))
  (amount_datapoints_to_visu : amount) (plot_path : string)
  : list (string * datapoint) * option exn :=
  let amount_datapoints_to_visu :=
    if amount_exceeds amount_datapoints_to_visu (Z.of_nat dataset_len)
    then Z.of_nat dataset_len
    else match amount_datapoints_to_visu with
         | Count n => n
         | Inf => Z.of_nat dataset_len
         end in
  match visit_batches plot_datapoint amount_datapoints_to_visu plot_path
          batches 0 with
  | (log, Raised e) => (log, Some e)
  | (log, _) => (log, None)
  end.

End Visualization.

(** ** Vocabulary of the statements *)

(** A group with exactly [batch_size] members. *)
Definition full_group (batch_size : Z) (g : list nat) : Prop :=
  Z.of_nat (List.length g) = batch_size.

(** What the code after the loop does with the group left over. *)
Definition tail_group (drop_last : bool) (rem : list nat) : list (list nat) :=
  if (0 <? Z.of_nat (List.length rem)) && negb drop_last then [rem] else [].

(** [l] is the floor, respectively the ceiling, of [n / b]. *)
Definition is_floor (n b l : Z) : Prop := l * b <= n < (l + 1) * b.

Definition is_ceil (n b l : Z) : Prop := (l - 1) * b < n <= l * b.

(** The values filed under [key] in one record and in a group of
    records, in order. *)
Definition items_of (key : string) (r : record) : list value :=
  map snd (filter (fun item => String.eqb key (fst item)) r).

Definition values_of (key : string) (batch : list record) : list value :=
  flat_map (items_of key) batch.

(** Whether the character [c] occurs in [s]. *)
Fixpoint has_char (c : ascii) (s : string) : bool :=
  match s with
  | EmptyString => false
  | String c' s' => Ascii.eqb c' c || has_char c s'
  end.

(** The text after the last [sep] of [s]; all of [s] when it has none. *)
Fixpoint after_last (sep : ascii) (s : string) : string :=
  match s with
  | EmptyString => EmptyString
  | String c s' =>
      if has_char sep s' then after_last sep s'
      else if Ascii.eqb c sep then s' else s
  end.

(** The values of the records of a group that hold [key], in record
    order. *)
Definition present_values (key : string) (batch : list record) : list value :=
  flat_map (fun r => match dict_get key r with Some v => [v] | None => [] end)
    batch.

(** A value the conversion of its field accepts: an identifier that
    [run_id_to_int] reads as a number a single-precision tensor takes,
    and for the other fields anything but a [str]. *)
Definition value_converts (key : string) (v : value) : bool :=
  if String.eqb key "run_id" then
    match run_id_to_int v with
    | Ok n => is_ok (Torch.float32_of_int n)
    | Err _ => false
    end
  else match v with VStr _ => false | _ => true end.

Definition record_converts (r : record) : Prop :=
  forall key v, In (key, v) r -> value_converts key v = true.

(** A list of values added to what a key already holds. *)
Definition extend (old : option (list value)) (vs : list value)
  : option (list value) :=
  match old, vs with
  | None, [] => None
  | None, _ => Some vs
  | Some l, _ => Some (l ++ vs)
  end.

(** ** Sample data *)

Definition tensor_3x4 : Tensor := mkTensor [3; 4]%nat (repeat 1%Q 12).

Definition tensor_3x5 : Tensor := mkTensor [3; 5]%nat (repeat 2%Q 15).

Definition record_17 : record :=
  [("run_id", VStr "run_17"); ("x", VTensor tensor_3x4)].

Definition record_42 : record :=
  [("run_id", VStr "sample_042"); ("x", VTensor tensor_3x4)].

Definition record_3x5 : record :=
  [("run_id", VStr "run_3"); ("x", VTensor tensor_3x5)].

Definition five_records : list record :=
  [record_17; record_42; record_17; record_42; record_17].

(** A field held as a plain array, not as a tensor. *)
Definition record_array : record :=
  [("run_id", VStr "run_5"); ("x", VArray [3; 4]%nat (repeat 1%Q 12))].

Definition record_array_b : record :=
  [("run_id", VStr "run_6"); ("x", VArray [3; 4]%nat (repeat 2%Q 12))].

(** Identifiers without a separator, and without a number. *)
Definition record_no_separator : record :=
  [("run_id", VStr "17"); ("x", VTensor tensor_3x4)].

Definition record_unparseable : record :=
  [("run_id", VStr "run_x7"); ("x", VTensor tensor_3x4)].



(** An identifier beyond the integers single precision holds. *)
Definition record_16777217 : record :=
  [("run_id", VStr "run_16777217"); ("x", VTensor tensor_3x4)].

(** Records that do not agree on their field names. *)
Definition mixed_group : list record :=
  [record_17; [("y", VTensor tensor_3x5); ("x", VTensor tensor_3x4)]].

(** Five records in batches of two, shuffled. *)
Definition sample_loader (drop_last : bool) : DataLoader :=
  __init__ five_records 2 true drop_last.

Definition sample_permutation : list nat := [1; 0; 2; 3; 4]%nat.

(** * Properties *)

Unset Implicit Arguments.

(** ** The string functions on examples *)

Example split_run_17 : PyStr.split "_" "run_17" = ["run"; "17"].
Proof. reflexivity. Qed.

Example split_many : PyStr.split "_" "a__b_" = ["a"; ""; "b"; ""].
Proof. reflexivity. Qed.

Example int_042 : PyStr.int "042" = Ok 42.
Proof. reflexivity. Qed.

Example int_signed_spaced : PyStr.int " -7 " = Ok (-7).
Proof. reflexivity. Qed.

Example int_empty : PyStr.int "" = Err ValueError.
Proof. reflexivity. Qed.

Example int_alpha : PyStr.int "1a" = Err ValueError.
Proof. reflexivity. Qed.


(** ** Arithmetic of [__len__] *)

Lemma ceil_neg_floor (a b : Z) : 0 < b -> - (- a / b) = (a + b - 1) / b.
Proof.
  intros Hb.
  pose proof (Z.div_mod (a + b - 1) b ltac:(lia)) as Hdm.
  pose proof (Z.mod_pos_bound (a + b - 1) b Hb) as Hr.
  rewrite <- (Z.div_unique (- a) b (- ((a + b - 1) / b)) (b - 1 - (a + b - 1) mod b)); lia.
Qed.

Lemma Qceiling_truediv (a b : Z) :
  0 < b -> Qceiling (inject_Z a / inject_Z b) = (a + b - 1) / b.
Proof.
  intros Hb. destruct b as [|p|p]; try lia.
  unfold Qceiling, Qfloor, Qdiv, Qmult, Qinv, Qopp, inject_Z. simpl.
  rewrite Z.mul_1_r. now apply ceil_neg_floor.
Qed.

(** Quotient and remainder from a decomposition into full groups. *)
Lemma div_mod_of_groups (n q r b : Z) :
  n = q * b + r -> 0 <= r < b -> n / b = q /\ n mod b = r.
Proof.
  intros Hn Hr. split.
  - symmetry. apply (Z.div_unique n b q r); lia.
  - symmetry. apply (Z.mod_unique n b q r); lia.
Qed.

Lemma ceil_of_groups (n q r b : Z) :
  n = q * b + r -> 0 <= r < b ->
  (n + b - 1) / b = q + (if 0 <? r then 1 else 0).
Proof.
  intros Hn Hr. destruct (0 <? r) eqn:E.
  - apply Z.ltb_lt in E. symmetry.
    apply (Z.div_unique (n + b - 1) b (q + 1) (r - 1)); lia.
  - apply Z.ltb_ge in E. symmetry.
    apply (Z.div_unique (n + b - 1) b (q + 0) (b - 1)); lia.
Qed.


(** ** The loop, run on indices *)

Lemma full_groups_length bs (full : list (list nat)) :
  Forall (full_group bs) full ->
  Z.of_nat (List.length (List.concat full)) = Z.of_nat (List.length full) * bs.
Proof.
  induction 1 as [|g gs Hg _ IH]; [reflexivity|].
  cbn [List.concat List.length]. rewrite length_app, Nat2Z.inj_add, Nat2Z.inj_succ.
  unfold full_group in Hg. nia.
Qed.

Lemma groups_structure bs dl (Hbs : 1 <= bs) :
  forall order acc,
    Z.of_nat (List.length acc) < bs ->
    exists full rem,
      acc ++ order = List.concat full ++ rem /\
      Forall (full_group bs) full /\
      Z.of_nat (List.length rem) < bs /\
      groups_from bs dl order acc = full ++ tail_group dl rem.
Proof.
  unfold groups_from.
  induction order as [|i rest IH]; intros acc Hacc.
  - exists [], acc. rewrite app_nil_r. repeat split; auto.
    simpl. unfold tail_group.
    destruct ((0 <? Z.of_nat (List.length acc)) && negb dl); reflexivity.
  - simpl. rewrite length_app. simpl.
    destruct (Z.of_nat (List.length acc + 1) =? bs) eqn:E.
    + apply Z.eqb_eq in E.
      destruct (IH [] ltac:(simpl; lia)) as (full & rem & Hsplit & Hfull & Hrem & Hg).
      exists ((acc ++ [i]) :: full), rem. simpl in *. repeat split; auto.
      * rewrite Hsplit, <- !app_assoc. reflexivity.
      * constructor; auto. unfold full_group. rewrite length_app. exact E.
      * now rewrite Hg.
    + apply Z.eqb_neq in E.
      destruct (IH (acc ++ [i])) as (full & rem & Hsplit & Hfull & Hrem & Hg).
      { rewrite length_app. simpl. lia. }
      exists full, rem. repeat split; auto.
      rewrite <- Hsplit, <- app_assoc. reflexivity.
Qed.

Lemma iter_loop_simulation (A B : Type) (getitem : nat -> result A)
  (convert : list A -> result B) (f : nat -> A) bs dl :
  forall order acc,
    Forall (fun i => getitem i = Ok (f i)) order ->
    iter_loop getitem convert bs dl order (map f acc) =
    yield_all convert (map (map f) (groups_from bs dl order acc)).
Proof.
  unfold groups_from.
  induction order as [|i rest IH]; intros acc Hget; simpl.
  - rewrite length_map.
    destruct ((0 <? Z.of_nat (List.length acc)) && negb dl); reflexivity.
  - inversion Hget as [|? ? Hi Hrest]; subst. rewrite Hi.
    rewrite !length_app, length_map. simpl.
    replace (map f acc ++ [f i]) with (map f (acc ++ [i])) by (rewrite map_app; reflexivity).
    destruct (Z.of_nat (List.length acc + 1) =? bs).
    + simpl. rewrite <- (IH [] Hrest). reflexivity.
    + apply IH; assumption.
Qed.

(** ** One pass of a [DataLoader] *)

Section Pass.

Variable self : DataLoader.
Variable permutation : list nat.

Hypothesis batch_size_pos : 1 <= batch_size self.
Hypothesis permutation_drawn :
  shuffle self = true -> random_permutation (dataset_len self) permutation.

Lemma index_iterator_permutation :
  Permutation (index_iterator self permutation) (seq 0 (dataset_len self)).
Proof.
  unfold index_iterator. destruct (shuffle self).
  - now apply permutation_drawn.
  - apply Permutation_refl.
Qed.

Lemma index_iterator_length :
  List.length (index_iterator self permutation) = dataset_len self.
Proof.
  rewrite (Permutation_length index_iterator_permutation). apply length_seq.
Qed.

Lemma getitem_in_range :
  Forall (fun i => dataset_getitem self i = Ok (nth i (dataset self) []))
    (index_iterator self permutation).
Proof.
  apply Forall_forall. intros i Hi.
  apply (Permutation_in _ index_iterator_permutation) in Hi.
  apply in_seq in Hi. unfold dataset_getitem, dataset_len in *.
  rewrite (nth_error_nth' (dataset self) [] (n:=i)) by lia. reflexivity.
Qed.

(** What the pass yields is the conversion of the index groups, one
    after the other. *)
Lemma iter_as_groups :
  __iter__ self permutation =
  yield_all convert_group (map (records_of self) (index_groups self permutation)).
Proof.
  unfold __iter__, index_groups, records_of.
  apply (@iter_loop_simulation _ _ (dataset_getitem self) convert_group
           (fun i => nth i (dataset self) []) (batch_size self) (drop_last self)
           (index_iterator self permutation) []).
  apply getitem_in_range.
Qed.

Lemma index_groups_structure :
  exists full rem,
    index_iterator self permutation = List.concat full ++ rem /\
    Forall (full_group (batch_size self)) full /\
    index_groups self permutation = full ++ tail_group (drop_last self) rem /\
    Z.of_nat (List.length full) = Z.of_nat (dataset_len self) / batch_size self /\
    Z.of_nat (List.length rem) = Z.of_nat (dataset_len self) mod batch_size self.
Proof.
  destruct (@groups_structure (batch_size self) (drop_last self) batch_size_pos
              (index_iterator self permutation) [])
    as (full & rem & Hsplit & Hfull & Hrem & Hg); [simpl; lia|].
  simpl in Hsplit.
  pose proof index_iterator_length as Hlen.
  rewrite Hsplit, length_app in Hlen.
  pose proof (full_groups_length _ _ Hfull) as Hc.
  destruct (@div_mod_of_groups (Z.of_nat (dataset_len self))
              (Z.of_nat (List.length full)) (Z.of_nat (List.length rem))
              (batch_size self)) as [Hq Hr]; [lia | lia |].
  exists full, rem. repeat split; auto.
Qed.

End Pass.

Lemma yield_all_finished (A B : Type) (convert : list A -> result B) groups :
  finished (yield_all convert groups) = true ->
  List.length (yielded (yield_all convert groups)) = List.length groups.
Proof.
  unfold finished.
  induction groups as [|g gs IH]; simpl; [reflexivity|].
  destruct (convert g); simpl; [|discriminate].
  intros H. now rewrite IH.
Qed.

Lemma yield_all_prefix (A B : Type) (convert : list A -> result B) groups :
  (List.length (yielded (yield_all convert groups)) <= List.length groups)%nat.
Proof.
  induction groups as [|g gs IH]; simpl; [lia|].
  destruct (convert g); simpl; lia.
Qed.

Lemma tail_group_length dl rem :
  List.length (tail_group dl rem)
  = if (0 <? Z.of_nat (List.length rem)) && negb dl then 1%nat else 0%nat.
Proof.
  unfold tail_group.
  destruct ((0 <? Z.of_nat (List.length rem)) && negb dl); reflexivity.
Qed.

Lemma len_value (self : DataLoader) :
  1 <= batch_size self ->
  __len__ self =
  Ok (if drop_last self
      then Z.of_nat (dataset_len self) / batch_size self
      else (Z.of_nat (dataset_len self) + batch_size self - 1) / batch_size self).
Proof.
  intros Hbs. unfold __len__, floordiv, truediv.
  destruct (batch_size self =? 0) eqn:E; [apply Z.eqb_eq in E; lia|].
  destruct (drop_last self); simpl; [reflexivity|].
  rewrite Qceiling_truediv by lia. reflexivity.
Qed.

Lemma floor_spec (n b : Z) : 0 < b -> is_floor n b (n / b).
Proof.
  intros Hb. unfold is_floor.
  pose proof (Z.div_mod n b ltac:(lia)). pose proof (Z.mod_pos_bound n b Hb). nia.
Qed.

Lemma ceil_spec (n b : Z) : 0 < b -> is_ceil n b ((n + b - 1) / b).
Proof.
  intros Hb. unfold is_ceil.
  pose proof (Z.div_mod (n + b - 1) b ltac:(lia)).
  pose proof (Z.mod_pos_bound (n + b - 1) b Hb). nia.
Qed.

Lemma index_groups_count (self : DataLoader) (permutation : list nat) :
  1 <= batch_size self ->
  (shuffle self = true -> random_permutation (dataset_len self) permutation) ->
  Z.of_nat (List.length (index_groups self permutation)) =
  if drop_last self
  then Z.of_nat (dataset_len self) / batch_size self
  else (Z.of_nat (dataset_len self) + batch_size self - 1) / batch_size self.
Proof.
  intros Hbs Hperm.
  destruct (index_groups_structure self permutation Hbs Hperm)
    as (full & rem & _ & _ & Hg & Hq & Hr).
  rewrite Hg, length_app, tail_group_length, Nat2Z.inj_add, Hq.
  destruct (drop_last self).
  - rewrite andb_false_r. simpl. lia.
  - rewrite andb_true_r.
    pose proof (Z.div_mod (Z.of_nat (dataset_len self)) (batch_size self)
                  ltac:(lia)) as Hdm.
    pose proof (Z.mod_pos_bound (Z.of_nat (dataset_len self)) (batch_size self)
                  ltac:(lia)) as Hb.
    rewrite (@ceil_of_groups (Z.of_nat (dataset_len self))
               (Z.of_nat (dataset_len self) / batch_size self)
               (Z.of_nat (dataset_len self) mod batch_size self)
               (batch_size self)) by lia.
    rewrite Hr.
    destruct (0 <? Z.of_nat (dataset_len self) mod batch_size self); reflexivity.
Qed.

Lemma sample_permutation_drawn (drop_last : bool) :
  shuffle (sample_loader drop_last) = true ->
  random_permutation (dataset_len (sample_loader drop_last)) sample_permutation.
Proof. intros _. apply perm_swap. Defined.

(** ** Coverage *)

(** X16.  A pass traverses [0..N-1] in order without [shuffle] and the
    permutation drawn with it; what it hands to the conversion are the
    index groups in order.  Without [drop_last] the groups, laid end to
    end, are the whole traversal: every index exactly once.  With
    [drop_last] they are its first [floor(N / batch_size) * batch_size]
    indices, all distinct, and the rest is left out. *)
Theorem pass_covers_indices (self : DataLoader) (permutation : list nat) :
  1 <= batch_size self ->
  (shuffle self = true -> random_permutation (dataset_len self) permutation) ->
  let n := Z.of_nat (dataset_len self) in
  let order := index_iterator self permutation in
  let groups := index_groups self permutation in
  (shuffle self = false -> order = seq 0 (dataset_len self)) /\
  (shuffle self = true -> order = permutation) /\
  Permutation order (seq 0 (dataset_len self)) /\
  __iter__ self permutation = yield_all convert_group (map (records_of self) groups) /\
  (drop_last self = false ->
     List.concat groups = order /\
     Permutation (List.concat groups) (seq 0 (dataset_len self))) /\
  (drop_last self = true ->
     List.concat groups = firstn (Z.to_nat (n / batch_size self * batch_size self)) order /\
     NoDup (List.concat groups) /\
     Z.of_nat (List.length (List.concat groups)) = n / batch_size self * batch_size self).
Proof.
  intros Hbs Hperm n order groups.
  pose proof (index_iterator_permutation self permutation Hperm) as Hord.
  destruct (index_groups_structure self permutation Hbs Hperm)
    as (full & rem & Hsplit & Hfull & Hg & Hq & Hr).
  pose proof (full_groups_length _ _ Hfull) as Hc.
  fold order in Hord, Hsplit. fold groups in Hg. fold n in Hq, Hr.
  repeat split.
  - unfold order, index_iterator. now intros ->.
  - unfold order, index_iterator. now intros ->.
  - exact Hord.
  - apply iter_as_groups, Hperm.
  - rewrite Hg, Hsplit, concat_app. f_equal.
    unfold tail_group. rewrite H, andb_true_r.
    destruct rem; reflexivity || (simpl; now rewrite app_nil_r).
  - rewrite Hg, concat_app. unfold tail_group at 1. rewrite H, andb_true_r.
    replace (List.concat (if 0 <? Z.of_nat (List.length rem) then [rem] else []))
      with rem by (destruct rem; reflexivity || (simpl; now rewrite app_nil_r)).
    now rewrite <- Hsplit.
  - rewrite Hg. unfold tail_group. rewrite H, andb_false_r, app_nil_r.
    rewrite Hsplit, <- Hq, <- Hc, Nat2Z.id.
    rewrite firstn_app, firstn_all, Nat.sub_diag. simpl. now rewrite app_nil_r.
  - rewrite Hg. unfold tail_group. rewrite H, andb_false_r, app_nil_r.
    apply (NoDup_app_remove_r _ rem). rewrite <- Hsplit.
    apply (Permutation_NoDup (Permutation_sym Hord)), seq_NoDup.
  - rewrite Hg. unfold tail_group. rewrite H, andb_false_r, app_nil_r.
    now rewrite Hc, Hq.
Qed.

Lemma pass_covers_indices_witness :
  let self := sample_loader true in
  let groups := index_groups self sample_permutation in
  (shuffle self = false -> index_iterator self sample_permutation = seq 0 5) /\
  (shuffle self = true -> index_iterator self sample_permutation = sample_permutation) /\
  Permutation (index_iterator self sample_permutation) (seq 0 5) /\
  __iter__ self sample_permutation
    = yield_all convert_group (map (records_of self) groups) /\
  (drop_last self = false ->
     List.concat groups = index_iterator self sample_permutation /\
     Permutation (List.concat groups) (seq 0 5)) /\
  (drop_last self = true ->
     List.concat groups = firstn 4 (index_iterator self sample_permutation) /\
     NoDup (List.concat groups) /\
     Z.of_nat (List.length (List.concat groups)) = 4).
Proof.
  apply (pass_covers_indices (sample_loader true) sample_permutation).
  - simpl. lia.
  - apply sample_permutation_drawn.
Defined.

Example sample_groups_dropping :
  index_groups (sample_loader true) sample_permutation = [[1; 0]; [2; 3]]%nat.
Proof. reflexivity. Qed.

Example sample_groups_keeping :
  index_groups (sample_loader false) sample_permutation = [[1; 0]; [2; 3]; [4]]%nat.
Proof. reflexivity. Qed.

(** ** Batch sizes *)

(** X17.  The groups the loop closes are [floor(N / batch_size)] groups
    of exactly [batch_size] indices, followed by nothing when
    [drop_last] is set or the remainder is zero, and otherwise by one
    last group of [N mod batch_size] indices; these groups, in order,
    are what is handed to the conversion. *)
Theorem batches_are_full_but_last (self : DataLoader) (permutation : list nat) :
  1 <= batch_size self ->
  (shuffle self = true -> random_permutation (dataset_len self) permutation) ->
  let n := Z.of_nat (dataset_len self) in
  exists full tail,
    index_groups self permutation = full ++ tail /\
    __iter__ self permutation
      = yield_all convert_group (map (records_of self) (full ++ tail)) /\
    Forall (full_group (batch_size self)) full /\
    Z.of_nat (List.length full) = n / batch_size self /\
    (if drop_last self || (n mod batch_size self =? 0)
     then tail = []
     else exists g, tail = [g] /\ Z.of_nat (List.length g) = n mod batch_size self).
Proof.
  intros Hbs Hperm n.
  destruct (index_groups_structure self permutation Hbs Hperm)
    as (full & rem & Hsplit & Hfull & Hg & Hq & Hr).
  fold n in Hq, Hr.
  exists full, (tail_group (drop_last self) rem).
  split; [exact Hg|]. split; [rewrite <- Hg; apply iter_as_groups, Hperm|].
  split; [exact Hfull|]. split; [exact Hq|].
  unfold tail_group. rewrite Hr.
  destruct (drop_last self); simpl.
  - rewrite andb_false_r. reflexivity.
  - rewrite andb_true_r.
    destruct (n mod batch_size self =? 0) eqn:E.
    + apply Z.eqb_eq in E. rewrite E. reflexivity.
    + apply Z.eqb_neq in E.
      pose proof (Z.mod_pos_bound n (batch_size self) ltac:(lia)) as Hb.
      destruct (0 <? n mod batch_size self) eqn:E'.
      * exists rem. split; [reflexivity | exact Hr].
      * apply Z.ltb_ge in E'. lia.
Qed.

Lemma batches_are_full_but_last_witness :
  exists full tail,
    index_groups (sample_loader false) sample_permutation = full ++ tail /\
    __iter__ (sample_loader false) sample_permutation
      = yield_all convert_group
          (map (records_of (sample_loader false)) (full ++ tail)) /\
    Forall (full_group 2) full /\
    Z.of_nat (List.length full) = 2 /\
    (exists g, tail = [g] /\ Z.of_nat (List.length g) = 1).
Proof.
  apply (batches_are_full_but_last (sample_loader false) sample_permutation).
  - simpl. lia.
  - apply sample_permutation_drawn.
Defined.

(** ** The empty dataset *)

(** C9.  On a dataset of no records a pass ends at once, yielding
    nothing and raising nothing, and [__len__] is 0, whatever
    [shuffle] and [drop_last] are and for every batch size of at least
    one. *)
Theorem empty_dataset_is_harmless (self : DataLoader) (permutation : list nat) :
  dataset self = [] ->
  1 <= batch_size self ->
  (shuffle self = true -> random_permutation (dataset_len self) permutation) ->
  __iter__ self permutation = Stop /\ __len__ self = Ok 0.
Proof.
  intros Hds Hbs Hperm.
  pose proof (index_iterator_permutation self permutation Hperm) as Hord.
  pose proof (len_value self Hbs) as Hlen.
  unfold __iter__. unfold dataset_len in *. rewrite Hds in *. simpl in *.
  apply Permutation_sym, Permutation_nil in Hord. rewrite Hord.
  split; [reflexivity|].
  rewrite Hlen. f_equal.
  destruct (drop_last self); [reflexivity|].
  apply Z.div_small. lia.
Qed.

Lemma empty_dataset_is_harmless_witness :
  __iter__ (__init__ [] 3 true false) [] = Stop /\
  __len__ (__init__ [] 3 true false) = Ok 0.
Proof.
  apply (empty_dataset_is_harmless (__init__ [] 3 true false) []).
  - reflexivity.
  - simpl. lia.
  - intros _. apply Permutation_refl.
Defined.

(** ** Dictionaries *)

Lemma dict_get_set (V : Type) (k key : string) (v : V) (d : dict V) :
  dict_get k (dict_set key v d) = if String.eqb k key then Some v else dict_get k d.
Proof.
  induction d as [|[k0 w] d IH]; simpl.
  - destruct (String.eqb k key); reflexivity.
  - destruct (String.eqb_spec key k0) as [->|Hne]; simpl.
    + destruct (String.eqb k k0); reflexivity.
    + rewrite IH. destruct (String.eqb_spec k k0) as [->|Hne'].
      * destruct (String.eqb_spec k0 key); [congruence | reflexivity].
      * reflexivity.
Qed.

Lemma dict_get_keys (V : Type) (k : string) (d : dict V) :
  In k (keys d) <-> dict_get k d <> None.
Proof.
  induction d as [|[k0 w] d IH]; simpl.
  - split; [tauto | congruence].
  - destruct (String.eqb_spec k k0) as [->|Hne].
    + split; [discriminate | auto].
    + rewrite <- IH. split; [intros [H|H]; congruence || assumption | auto].
Qed.

Lemma dict_get_In (V : Type) (k : string) (v : V) (d : dict V) :
  dict_get k d = Some v -> In (k, v) d.
Proof.
  induction d as [|[k0 w] d IH]; simpl; [discriminate|].
  destruct (String.eqb_spec k k0) as [->|Hne].
  - intros [= ->]. now left.
  - intros H. right. now apply IH.
Qed.

Lemma keys_dict_set (V : Type) (key : string) (v : V) (d : dict V) :
  keys (dict_set key v d) = if dict_mem key d then keys d else keys d ++ [key].
Proof.
  unfold dict_mem.
  induction d as [|[k0 w] d IH]; simpl; [reflexivity|].
  destruct (String.eqb_spec key k0) as [->|Hne]; simpl; [reflexivity|].
  rewrite IH. destruct (dict_get key d); reflexivity.
Qed.

Lemma dict_set_well_keyed (V : Type) (key : string) (v : V) (d : dict V) :
  well_keyed d -> well_keyed (dict_set key v d).
Proof.
  unfold well_keyed. intros Hd. rewrite keys_dict_set.
  unfold dict_mem. destruct (dict_get key d) eqn:E; [assumption|].
  assert (~ In key (keys d)) as Hnot by (rewrite dict_get_keys; congruence).
  apply NoDup_rev in Hd. rewrite <- (rev_involutive (keys d ++ [key])).
  apply NoDup_rev. rewrite rev_app_distr. simpl. constructor; [|assumption].
  now rewrite <- in_rev.
Qed.

(** ** Re-grouping *)

Lemma extend_extend (o : option (list value)) (a b : list value) :
  extend (extend o a) b = extend o (a ++ b).
Proof.
  destruct o as [l|]; simpl.
  - destruct a; simpl; now rewrite <- app_assoc.
  - destruct a; reflexivity.
Qed.

Lemma combine_item_get (k key : string) (v : value) (bd : dict (list value)) :
  dict_get k (combine_item bd (key, v))
  = extend (dict_get k bd) (if String.eqb k key then [v] else []).
Proof.
  unfold combine_item, dict_mem.
  destruct (dict_get key bd) as [vs|] eqn:E; simpl.
  - rewrite E, dict_get_set.
    destruct (String.eqb_spec k key) as [->|Hne].
    + now rewrite E.
    + destruct (dict_get k bd); simpl; [now rewrite app_nil_r | reflexivity].
  - rewrite dict_get_set, String.eqb_refl, !dict_get_set.
    destruct (String.eqb_spec k key) as [->|Hne].
    + now rewrite E.
    + destruct (dict_get k bd); simpl; [now rewrite app_nil_r | reflexivity].
Qed.

Lemma combine_record_get (k : string) (r : record) :
  forall bd,
    dict_get k (fold_left combine_item r bd)
    = extend (dict_get k bd) (items_of k r).
Proof.
  induction r as [|[key v] r IH]; intros bd; cbn [fold_left].
  - destruct (dict_get k bd); simpl; [now rewrite app_nil_r | reflexivity].
  - rewrite IH, combine_item_get, extend_extend. unfold items_of. simpl.
    destruct (String.eqb k key); reflexivity.
Qed.

Lemma combine_from_get (k : string) (batch : list record) :
  forall bd,
    dict_get k (fold_left (fun bd r => fold_left combine_item r bd) batch bd)
    = extend (dict_get k bd) (values_of k batch).
Proof.
  induction batch as [|r batch IH]; intros bd; cbn [fold_left].
  - destruct (dict_get k bd); simpl; [now rewrite app_nil_r | reflexivity].
  - now rewrite IH, combine_record_get, extend_extend.
Qed.

(** Every key of the re-grouped batch holds all the values filed under
    it, record after record. *)
Lemma combine_batch_dicts_get (k : string) (batch : list record) :
  dict_get k (combine_batch_dicts batch) = extend None (values_of k batch).
Proof. apply (combine_from_get k batch []). Qed.

Lemma combine_item_well_keyed (bd : dict (list value)) (item : string * value) :
  well_keyed bd -> well_keyed (combine_item bd item).
Proof.
  destruct item as [key v]. unfold combine_item. intros Hbd.
  assert (well_keyed (if negb (dict_mem key bd) then dict_set key [] bd else bd))
    as Hbd' by (destruct (negb (dict_mem key bd)); auto using dict_set_well_keyed).
  destruct (dict_get key _); auto using dict_set_well_keyed.
Qed.

Lemma combine_batch_dicts_well_keyed (batch : list record) :
  well_keyed (combine_batch_dicts batch).
Proof.
  unfold combine_batch_dicts.
  assert (well_keyed (@nil (string * list value))) as Hnil by constructor.
  revert Hnil. generalize (@nil (string * list value)) as bd.
  induction batch as [|r batch IH]; intros bd Hbd; simpl; [assumption|].
  apply IH. clear IH. revert bd Hbd.
  induction r as [|item r IHr]; intros bd Hbd; simpl; [assumption|].
  apply IHr, combine_item_well_keyed, Hbd.
Qed.

Lemma items_of_keys (k : string) (r : record) :
  items_of k r <> [] <-> In k (keys r).
Proof.
  unfold items_of.
  induction r as [|[key v] r IH]; simpl; [tauto|].
  destruct (String.eqb_spec k key) as [->|Hne]; simpl.
  - split; [auto | discriminate].
  - rewrite IH. split; [auto | intros [H|H]; congruence || assumption].
Qed.

Lemma items_of_well_keyed (k : string) (r : record) :
  well_keyed r ->
  items_of k r = match dict_get k r with Some v => [v] | None => [] end.
Proof.
  unfold well_keyed.
  induction r as [|[key v] r IH]; simpl; intros Hnd; [reflexivity|].
  inversion Hnd as [|? ? Hnot Hnd']; subst.
  unfold items_of in *. simpl.
  destruct (String.eqb_spec k key) as [->|Hne]; simpl.
  - f_equal.
    destruct (map snd (filter (fun item => String.eqb key (fst item)) r)) eqn:E;
      [reflexivity|].
    exfalso. apply Hnot, items_of_keys. unfold items_of. rewrite E. discriminate.
  - now apply IH.
Qed.

Lemma values_of_present (k : string) (batch : list record) :
  Forall well_keyed batch -> values_of k batch = present_values k batch.
Proof.
  unfold values_of, present_values.
  induction 1 as [|r batch Hr _ IH]; simpl; [reflexivity|].
  now rewrite IH, items_of_well_keyed.
Qed.

Lemma values_of_nonempty (k : string) (batch : list record) :
  values_of k batch <> [] <-> exists r, In r batch /\ In k (keys r).
Proof.
  unfold values_of.
  induction batch as [|r batch IH]; simpl.
  - split; [congruence | intros (r & [] & _)].
  - split.
    + intros Hne. destruct (items_of k r) eqn:E.
      * simpl in Hne. apply IH in Hne. destruct Hne as (r' & Hin & Hk).
        exists r'. auto.
      * exists r. split; [now left|]. apply items_of_keys. rewrite E. discriminate.
    + intros (r' & [<-|Hin] & Hk).
      * apply items_of_keys in Hk. destruct (items_of k r); [congruence | discriminate].
      * assert (flat_map (items_of k) batch <> []) as Hne
          by (apply IH; exists r'; auto).
        destruct (items_of k r); [assumption | discriminate].
Qed.

(** ** Conversion of a re-grouped batch *)

Lemma batch_to_tensor_from_keys (items : dict (list value)) :
  forall acc tb,
    batch_to_tensor_from acc items = Ok tb ->
    NoDup (keys acc ++ keys items) ->
    keys tb = keys acc ++ keys items.
Proof.
  induction items as [|[key values] rest IH]; intros acc tb Hrun Hnd; simpl in *.
  - injection Hrun as <-. now rewrite app_nil_r.
  - destruct (field_to_tensor key values) as [t|e]; simpl in Hrun; [|discriminate].
    assert (keys (dict_set key t acc) = keys acc ++ [key]) as Hk.
    { rewrite keys_dict_set. unfold dict_mem.
      destruct (dict_get key acc) eqn:E; [|reflexivity].
      exfalso. apply NoDup_remove_2 in Hnd. apply Hnd, in_or_app. left.
      apply dict_get_keys. congruence. }
    rewrite (IH _ _ Hrun); rewrite Hk, <- app_assoc; [reflexivity | exact Hnd].
Qed.

Lemma batch_to_tensor_from_other (items : dict (list value)) (k : string) :
  forall acc tb,
    batch_to_tensor_from acc items = Ok tb ->
    ~ In k (keys items) ->
    dict_get k tb = dict_get k acc.
Proof.
  induction items as [|[key values] rest IH]; intros acc tb Hrun Hnot; simpl in *.
  - now injection Hrun as <-.
  - destruct (field_to_tensor key values) as [t|e]; simpl in Hrun; [|discriminate].
    rewrite (IH _ _ Hrun) by tauto. rewrite dict_get_set.
    destruct (String.eqb_spec k key); [subst; tauto | reflexivity].
Qed.

(** In a batch that converts, every field holds the conversion of its
    own list of values. *)
Lemma batch_to_tensor_from_get (items : dict (list value)) :
  forall acc tb k vs,
    batch_to_tensor_from acc items = Ok tb ->
    NoDup (keys items) ->
    In (k, vs) items ->
    exists t, field_to_tensor k vs = Ok t /\ dict_get k tb = Some t.
Proof.
  induction items as [|[key values] rest IH]; intros acc tb k vs Hrun Hnd Hin;
    simpl in *; [contradiction|].
  destruct (field_to_tensor key values) as [t|e] eqn:Ef; simpl in Hrun; [|discriminate].
  inversion Hnd as [|? ? Hnot Hnd']; subst.
  destruct Hin as [[= -> ->]|Hin].
  - exists t. split; [exact Ef|].
    rewrite (batch_to_tensor_from_other _ _ _ _ Hrun Hnot), dict_get_set.
    now rewrite String.eqb_refl.
  - now apply (IH _ _ _ _ Hrun Hnd').
Qed.

(** A field that does not convert makes the whole conversion fail. *)
Lemma batch_to_tensor_from_fails (items : dict (list value)) :
  forall acc k vs e,
    In (k, vs) items ->
    field_to_tensor k vs = Err e ->
    exists e', batch_to_tensor_from acc items = Err e'.
Proof.
  induction items as [|[key values] rest IH]; intros acc k vs e Hin Hf;
    simpl in *; [contradiction|].
  destruct Hin as [[= -> ->]|Hin].
  - rewrite Hf. simpl. eauto.
  - destruct (field_to_tensor key values); simpl; eauto.
Qed.

(** C10.  Re-grouping is total and checks nothing: whatever the field
    names of the records of a group, the re-grouped batch has as keys
    the union of their keys, each once, and a key holds the values of
    just the records that have it, in record order; a batch that
    converts keeps these keys. *)
Theorem regrouping_takes_the_union (batch : list record) :
  Forall well_keyed batch ->
  let batch_dict := combine_batch_dicts batch in
  well_keyed batch_dict /\
  (forall key, In key (keys batch_dict) <-> exists r, In r batch /\ In key (keys r)) /\
  (forall key, In key (keys batch_dict) ->
               dict_get key batch_dict = Some (present_values key batch)) /\
  (forall tensor_batch, batch_to_tensor batch_dict = Ok tensor_batch ->
                        keys tensor_batch = keys batch_dict).
Proof.
  intros Hwk batch_dict. subst batch_dict.
  assert (forall key, In key (keys (combine_batch_dicts batch)) <->
                      values_of key batch <> []) as Hkeys.
  { intros key. rewrite dict_get_keys, combine_batch_dicts_get.
    destruct (values_of key batch); simpl; split; congruence. }
  repeat split.
  - apply combine_batch_dicts_well_keyed.
  - intros Hin. now apply values_of_nonempty, Hkeys.
  - intros Hex. now apply Hkeys, values_of_nonempty.
  - intros key Hin. apply Hkeys in Hin.
    rewrite combine_batch_dicts_get, <- (values_of_present key batch Hwk).
    destruct (values_of key batch); [congruence | reflexivity].
  - intros tb Hrun.
    apply (batch_to_tensor_from_keys _ [] tb Hrun).
    apply combine_batch_dicts_well_keyed.
Qed.

Lemma regrouping_takes_the_union_witness :
  let batch_dict := combine_batch_dicts mixed_group in
  well_keyed batch_dict /\
  (forall key, In key (keys batch_dict) <->
               exists r, In r mixed_group /\ In key (keys r)) /\
  (forall key, In key (keys batch_dict) ->
               dict_get key batch_dict = Some (present_values key mixed_group)) /\
  (forall tensor_batch, batch_to_tensor batch_dict = Ok tensor_batch ->
                        keys tensor_batch = keys batch_dict).
Proof.
  apply (regrouping_takes_the_union mixed_group).
  repeat constructor; simpl; intuition discriminate.
Defined.

Example mixed_group_regrouped :
  combine_batch_dicts mixed_group
  = [("run_id", [VStr "run_17"]);
     ("x", [VTensor tensor_3x4; VTensor tensor_3x4]);
     ("y", [VTensor tensor_3x5])].
Proof. reflexivity. Qed.

(** ** Splitting an identifier *)

Lemma split_without_separator (sep : ascii) (s : string) :
  has_char sep s = false -> PyStr.split sep s = [s].
Proof.
  induction s as [|c s IH]; simpl; [reflexivity|].
  intros H. apply orb_false_iff in H. destruct H as [Hc Hs].
  now rewrite Hc, IH.
Qed.

Lemma split_with_separator (sep : ascii) (s : string) :
  has_char sep s = true ->
  exists seg seg' segs, PyStr.split sep s = seg :: seg' :: segs.
Proof.
  induction s as [|c s IH]; simpl; [discriminate|].
  destruct (Ascii.eqb c sep) eqn:Ec; simpl.
  - intros _. destruct (has_char sep s) eqn:Es.
    + destruct (IH eq_refl) as (seg & seg' & segs & ->). eauto.
    + rewrite (split_without_separator _ _ Es). eauto.
  - intros Hs. destruct (IH Hs) as (seg & seg' & segs & ->). eauto.
Qed.

Lemma last_item_cons (A : Type) (x y : A) (l : list A) :
  PyStr.last_item (x :: y :: l) = PyStr.last_item (y :: l).
Proof.
  unfold PyStr.last_item. change (rev (x :: y :: l)) with (rev (y :: l) ++ [x]).
  destruct (rev (y :: l)) eqn:E; [|reflexivity].
  apply (f_equal (@List.length A)) in E. rewrite length_rev in E. discriminate.
Qed.

(** [s.split(sep)[-1]] is the text after the last separator. *)
Lemma split_last_item (sep : ascii) (s : string) :
  PyStr.last_item (PyStr.split sep s) = Ok (after_last sep s).
Proof.
  induction s as [|c s IH]; [reflexivity|].
  cbn [PyStr.split after_last].
  destruct (has_char sep s) eqn:Es.
  - destruct (split_with_separator _ _ Es) as (seg & seg' & segs & E).
    rewrite E in *. destruct (Ascii.eqb c sep); rewrite last_item_cons.
    + exact IH.
    + rewrite <- IH. now rewrite last_item_cons.
  - rewrite (split_without_separator _ _ Es).
    destruct (Ascii.eqb c sep); reflexivity.
Qed.

Lemma has_char_app (sep : ascii) (p t : string) :
  has_char sep (p ++ String sep t) = true.
Proof.
  induction p as [|c p IH]; simpl.
  - now rewrite Ascii.eqb_refl.
  - rewrite IH. apply orb_true_r.
Qed.

Lemma after_last_app (sep : ascii) (p t : string) :
  has_char sep t = false -> after_last sep (p ++ String sep t) = t.
Proof.
  intros Ht. induction p as [|c p IH]; simpl.
  - now rewrite Ht, Ascii.eqb_refl.
  - now rewrite has_char_app.
Qed.

Lemma run_id_to_int_str (s : string) :
  run_id_to_int (VStr s) = PyStr.int (after_last "_" s).
Proof. unfold run_id_to_int. now rewrite split_last_item. Qed.

(** ** Reading a decimal literal *)

Lemma digit_is_no_space (c : ascii) (d : Z) :
  PyStr.digit_of c = Some d -> PyStr.is_space c = false.
Proof.
  unfold PyStr.digit_of, PyStr.is_space. generalize (nat_of_ascii c) as n. intros n.
  destruct (Nat.leb_spec 48 n), (Nat.leb_spec n 57); simpl; try discriminate.
  intros _.
  destruct (Nat.leb_spec 9 n), (Nat.leb_spec n 13), (Nat.eqb_spec n 32),
    (Nat.eqb_spec n 133), (Nat.eqb_spec n 160); simpl; try reflexivity; lia.
Qed.

Lemma digit_is_no_mark (c mark : ascii) (d : Z) :
  PyStr.digit_of c = Some d -> PyStr.digit_of mark = None -> Ascii.eqb c mark = false.
Proof.
  intros Hc Hm. destruct (Ascii.eqb_spec c mark); [congruence | reflexivity].
Qed.

Lemma digits_have_no_separator (s : string) :
  forall acc n, PyStr.digits_from acc s = Some n -> has_char "_" s = false.
Proof.
  induction s as [|c s IH]; intros acc n; simpl; [reflexivity|].
  destruct (PyStr.digit_of c) as [d|] eqn:Ed; [|discriminate].
  intros H. rewrite (digit_is_no_mark c "_" d Ed eq_refl). simpl. eauto.
Qed.

Lemma digits_rstrip (s : string) :
  forall acc n, PyStr.digits_from acc s = Some n -> PyStr.rstrip s = s.
Proof.
  induction s as [|c s IH]; intros acc n; simpl; [reflexivity|].
  destruct (PyStr.digit_of c) as [d|] eqn:Ed; [|discriminate].
  intros H. rewrite (IH _ _ H).
  destruct s; [now rewrite (digit_is_no_space c d Ed) | reflexivity].
Qed.

Lemma digits_lstrip (s : string) :
  forall acc n, PyStr.digits_from acc s = Some n -> PyStr.lstrip s = s.
Proof.
  destruct s as [|c s]; intros acc n; simpl; [reflexivity|].
  destruct (PyStr.digit_of c) as [d|] eqn:Ed; [|discriminate].
  now rewrite (digit_is_no_space c d Ed).
Qed.

(** [int] reads a run of decimal digits as the number it denotes. *)
Lemma int_of_decimal (s : string) (n : Z) :
  PyStr.decimal s = Some n -> PyStr.int s = Ok n.
Proof.
  unfold PyStr.decimal, PyStr.int, PyStr.strip.
  destruct s as [|c s]; [discriminate|]. intros H.
  rewrite (digits_lstrip _ _ _ H), (digits_rstrip _ _ _ H).
  simpl in H. destruct (PyStr.digit_of c) as [d|] eqn:Ed; [|discriminate].
  rewrite (digit_is_no_mark c "-" d Ed eq_refl), (digit_is_no_mark c "+" d Ed eq_refl).
  unfold PyStr.decimal. simpl. rewrite Ed, H. reflexivity.
Qed.

Lemma run_id_to_int_suffix (prefix digits : string) (n : Z) :
  PyStr.decimal digits = Some n ->
  run_id_to_int (VStr (prefix ++ "_" ++ digits)) = Ok n.
Proof.
  intros H. rewrite run_id_to_int_str.
  change (prefix ++ "_" ++ digits)%string with (prefix ++ String "_" digits)%string.
  rewrite after_last_app; [now apply int_of_decimal|].
  destruct digits; [reflexivity|]. exact (digits_have_no_separator _ _ _ H).
Qed.

Ltac read_digit :=
  cbn [NilEmpty.string_of_uint PyStr.digits_from Pos.of_uint_acc Pos.of_uint];
  match goal with
  | |- context [PyStr.digit_of ?c] =>
      let v := eval vm_compute in (PyStr.digit_of c) in
      change (PyStr.digit_of c) with v; cbv iota
  end.

Lemma digits_of_numeral_acc (u : Decimal.uint) :
  forall acc : positive,
    PyStr.digits_from (Z.pos acc) (NilEmpty.string_of_uint u)
    = Some (Z.pos (Pos.of_uint_acc u acc)).
Proof.
  induction u; intros acc; [reflexivity | ..]; read_digit;
    match goal with
    | |- PyStr.digits_from ?a _ = Some (Z.pos (Pos.of_uint_acc _ ?b)) =>
        replace a with (Z.pos b) by lia; apply IHu
    end.
Qed.

Lemma digits_of_numeral (u : Decimal.uint) :
  PyStr.digits_from 0 (NilEmpty.string_of_uint u) = Some (Z.of_N (Pos.of_uint u)).
Proof.
  induction u; [reflexivity | ..]; read_digit; [exact IHu | ..];
    apply digits_of_numeral_acc.
Qed.

Lemma decimal_of_number (n : N) :
  PyStr.decimal (NilZero.string_of_uint (N.to_uint n)) = Some (Z.of_N n).
Proof.
  assert (forall u, u <> Decimal.Nil ->
            PyStr.decimal (NilZero.string_of_uint u) = Some (Z.of_N (Pos.of_uint u)))
    as H.
  { intros u Hu. pose proof (digits_of_numeral u) as Hd.
    destruct u; try congruence; exact Hd. }
  rewrite H.
  - change (Pos.of_uint (N.to_uint n)) with (N.of_uint (N.to_uint n)).
    now rewrite DecimalN.Unsigned.of_to.
  - destruct n; simpl; [discriminate | apply DecimalPos.Unsigned.to_uint_nonnil].
Qed.

(** ** Encoding the identifiers *)

Lemma present_run_ids (batch : list record) (ids : list (string * string * Z)) :
  Forall2 (fun r id =>
             dict_get "run_id" r = Some (VStr (fst (fst id) ++ "_" ++ snd (fst id)))
             /\ PyStr.decimal (snd (fst id)) = Some (snd id)) batch ids ->
  present_values "run_id" batch
    = map (fun id => VStr (fst (fst id) ++ "_" ++ snd (fst id))) ids /\
  list_comprehension run_id_to_int (present_values "run_id" batch)
    = Ok (map snd ids) /\
  List.length batch = List.length ids.
Proof.
  unfold present_values.
  induction 1 as [|r id batch ids [Hr Hd] _ (IHv & IHc & IHl)].
  - repeat split.
  - cbn [flat_map List.length map]. rewrite Hr, IHl.
    cbn [List.app list_comprehension].
    rewrite (run_id_to_int_suffix _ _ _ Hd), IHc, IHv. repeat split.
Qed.

(** ** Single precision *)

Lemma round_to_float32_small (n : Z) :
  Z.abs n <= 2 ^ 24 -> Torch.round_to_float32 n = n.
Proof.
  intros Hn. unfold Torch.round_to_float32.
  destruct (Z.leb_spec (Z.log2 (Z.abs n) - 23) 0) as [_|He]; [reflexivity|].
  assert (0 < Z.abs n) as Hpos.
  { destruct (Z.eq_dec (Z.abs n) 0) as [E|E]; [|lia].
    rewrite E in He. simpl in He. lia. }
  assert (Z.abs n = 2 ^ 24) as Ha.
  { destruct (Z.lt_ge_cases (Z.abs n) (2 ^ 24)) as [Hlt|Hge]; [|lia].
    apply (Z.log2_lt_pow2 _ _ Hpos) in Hlt. lia. }
  rewrite Ha. change (Z.log2 (2 ^ 24) - 23) with 1.
  change (Z.sgn n * (2 ^ 24) = n).
  destruct n; simpl in *; lia.
Qed.

Lemma float32_of_int_rounds (n : Z) :
  Z.abs n <= 2 ^ 53 ->
  Torch.float32_of_int n = Ok (inject_Z (Torch.round_to_float32 n)).
Proof.
  intros Hn. unfold Torch.float32_of_int.
  destruct (Z.leb_spec (Z.abs n) (2 ^ 53)); [reflexivity | lia].
Qed.

Lemma float32_of_int_fits (n : Z) :
  is_ok (Torch.float32_of_int n) = true -> Z.abs n <= 2 ^ 53.
Proof.
  unfold Torch.float32_of_int.
  destruct (Z.leb_spec (Z.abs n) (2 ^ 53)); [trivial | discriminate].
Qed.

Lemma of_ints_rounds (ns : list Z) :
  Forall (fun n => Z.abs n <= 2 ^ 53) ns ->
  Torch.of_ints ns
  = Ok (mkTensor [List.length ns]
          (map (fun n => inject_Z (Torch.round_to_float32 n)) ns)).
Proof.
  intros Hall. unfold Torch.of_ints.
  assert (list_comprehension Torch.float32_of_int ns
          = Ok (map (fun n => inject_Z (Torch.round_to_float32 n)) ns)) as ->.
  { induction Hall as [|n ns Hn _ IH]; simpl; [reflexivity|].
    now rewrite (float32_of_int_rounds n Hn), IH. }
  reflexivity.
Qed.

Lemma rounding_is_exact (ns : list Z) :
  Forall (fun n => Z.abs n <= 2 ^ 24) ns ->
  map (fun n => inject_Z (Torch.round_to_float32 n)) ns = map inject_Z ns.
Proof.
  induction 1 as [|n ns Hn _ IH]; simpl; [reflexivity|].
  now rewrite (round_to_float32_small n Hn), IH.
Qed.

Example float32_of_16777217 : Torch.round_to_float32 16777217 = 16777216.
Proof. reflexivity. Qed.

Example float32_of_16777219 : Torch.round_to_float32 16777219 = 16777220.
Proof. reflexivity. Qed.

Example float32_of_20231105 : Torch.round_to_float32 (-20231105) = -20231104.
Proof. reflexivity. Qed.

Example sample_batch_converted :
  convert_group [record_17; record_42]
  = Ok [("run_id", mkTensor [2%nat] [17%Q; 42%Q]);
        ("x", mkTensor [2; 3; 4]%nat (repeat 1%Q 24))].
Proof. reflexivity. Qed.

Example identifier_with_inner_separator :
  run_id_to_int (VStr "run_a_17") = Ok 17.
Proof. reflexivity. Qed.

(** ** Identifiers that cannot be read *)

Lemma list_comprehension_fails (A B : Type) (f : A -> result B) (xs : list A)
  (x : A) (e : exn) :
  In x xs -> f x = Err e -> exists e', list_comprehension f xs = Err e'.
Proof.
  induction xs as [|y xs IH]; simpl; [contradiction|].
  intros [->|Hin] Hf.
  - rewrite Hf. simpl. eauto.
  - destruct (f y); simpl; [|eauto].
    destruct (IH Hin Hf) as (e' & ->). simpl. eauto.
Qed.

Lemma items_of_In (k : string) (v : value) (r : record) :
  In (k, v) r -> In v (items_of k r).
Proof.
  intros Hin. unfold items_of.
  apply (in_map snd _ (k, v)), filter_In. split; [assumption|].
  apply String.eqb_refl.
Qed.

Lemma yield_all_raises (A B : Type) (convert : list A -> result B)
  (groups : list (list A)) (g : list A) (e : exn) :
  In g groups -> convert g = Err e -> finished (yield_all convert groups) = false.
Proof.
  unfold finished.
  induction groups as [|g' groups IH]; simpl; [contradiction|].
  intros [->|Hin] Hc.
  - rewrite Hc. reflexivity.
  - destruct (convert g'); simpl; [now apply IH | reflexivity].
Qed.

Lemma field_to_tensor_run_id (values : list value) :
  field_to_tensor "run_id" values
  = (ids <- list_comprehension run_id_to_int values ;; Torch.of_ints ids).
Proof. reflexivity. Qed.

(** C7, as the code has it.  The text [run_id_to_int] hands to [int]
    is the one after the last separator, and the whole identifier when
    it has none.  When [int] rejects that text for the identifier of
    some record of a group, the conversion of the group fails, and a
    pass that closes the group ends with an exception. *)
Theorem unreadable_identifier_raises (batch : list record) (r : record)
  (s : string) (e : exn) :
  In r batch ->
  dict_get "run_id" r = Some (VStr s) ->
  PyStr.int (after_last "_" s) = Err e ->
  run_id_to_int (VStr s) = Err e /\
  (exists e', convert_group batch = Err e') /\
  (forall self permutation g,
      1 <= batch_size self ->
      (shuffle self = true -> random_permutation (dataset_len self) permutation) ->
      In g (index_groups self permutation) ->
      records_of self g = batch ->
      finished (__iter__ self permutation) = false).
Proof.
  intros Hr Hget Hint.
  assert (run_id_to_int (VStr s) = Err e) as Hid
    by (now rewrite run_id_to_int_str).
  assert (exists e', convert_group batch = Err e') as Hfail.
  { assert (In (VStr s) (values_of "run_id" batch)) as Hin.
    { unfold values_of. apply in_flat_map. exists r. split; [assumption|].
      now apply items_of_In, dict_get_In. }
    pose proof (combine_batch_dicts_get "run_id" batch) as Hc.
    destruct (values_of "run_id" batch) as [|v vs] eqn:Ev; [contradiction|].
    simpl in Hc.
    destruct (list_comprehension_fails _ _ run_id_to_int _ _ _ Hin Hid) as (e1 & He1).
    apply (batch_to_tensor_from_fails _ [] "run_id" (v :: vs) e1).
    - apply dict_get_In. now rewrite Hc.
    - rewrite field_to_tensor_run_id, He1. reflexivity. }
  repeat split; [exact Hid | exact Hfail |].
  intros self permutation g Hbs Hperm Hg Hrec.
  destruct Hfail as (e' & He'). rewrite (iter_as_groups self permutation Hperm).
  apply (yield_all_raises _ _ convert_group _ (records_of self g) e').
  - now apply in_map.
  - now rewrite Hrec.
Qed.

Lemma unreadable_identifier_raises_witness :
  run_id_to_int (VStr "run_x7") = Err ValueError /\
  (exists e', convert_group [record_17; record_unparseable] = Err e') /\
  (forall self permutation g,
      1 <= batch_size self ->
      (shuffle self = true -> random_permutation (dataset_len self) permutation) ->
      In g (index_groups self permutation) ->
      records_of self g = [record_17; record_unparseable] ->
      finished (__iter__ self permutation) = false).
Proof.
  apply (unreadable_identifier_raises [record_17; record_unparseable]
           record_unparseable "run_x7" ValueError).
  - right. left. reflexivity.
  - reflexivity.
  - reflexivity.
Defined.

(** C7, as stated, fails on an identifier without separator: ["17"]
    is not a prefix, a separator and a suffix, yet the group converts
    and the identifier is encoded as 17. *)
Lemma separator_free_identifier_accepted :
  (forall prefix suffix : string, "17" <> (prefix ++ "_" ++ suffix)%string) /\
  convert_group [record_no_separator]
  = Ok [("run_id", mkTensor [1%nat] [17%Q]);
        ("x", mkTensor [1; 3; 4]%nat (repeat 1%Q 12))].
Proof.
  split; [|reflexivity].
  intros prefix suffix H.
  destruct prefix as [|c1 [|c2 [|c3 prefix]]]; discriminate H.
Qed.

Example unparseable_pass :
  __iter__ (__init__ [record_17; record_unparseable; record_42] 2 false false) []
  = Raise ValueError.
Proof. reflexivity. Qed.

(** ** Stacking and its fallback *)

Lemma expect_tensors_In (vs : list value) :
  forall ts t,
    list_comprehension Torch.expect_tensor vs = Ok ts ->
    In (VTensor t) vs -> In t ts.
Proof.
  induction vs as [|v vs IH]; intros ts t Hts Hin; simpl in *; [contradiction|].
  destruct v as [t'| |]; simpl in Hts; try discriminate.
  destruct (list_comprehension Torch.expect_tensor vs) as [ts'|] eqn:E;
    simpl in Hts; [|discriminate].
  injection Hts as <-. destruct Hin as [[= ->]|Hin]; [now left | right; eauto].
Qed.

Lemma expect_tensors_map (ts : list Tensor) :
  list_comprehension Torch.expect_tensor (map VTensor ts) = Ok ts.
Proof. induction ts as [|t ts IH]; simpl; [|rewrite IH]; reflexivity. Qed.

Lemma same_shape_true (s1 s2 : list nat) :
  Torch.same_shape s1 s2 = true <-> s1 = s2.
Proof.
  unfold Torch.same_shape. destruct (list_eq_dec Nat.eq_dec s1 s2);
    split; congruence.
Qed.

(** Tensors of one shape are stacked along a new leading axis. *)
Lemma stack_uniform (t0 : Tensor) (ts : list Tensor) :
  Forall (fun t => shape t = shape t0) ts ->
  Torch.stack (map VTensor (t0 :: ts))
  = Ok (mkTensor (S (List.length ts) :: shape t0)
          (List.concat (map data (t0 :: ts)))).
Proof.
  intros Hall. unfold Torch.stack. rewrite expect_tensors_map. simpl.
  replace (Torch.same_shape (shape t0) (shape t0)) with true
    by (symmetry; now apply same_shape_true).
  replace (forallb (fun t => Torch.same_shape (shape t) (shape t0)) ts) with true;
    [reflexivity|].
  symmetry. apply forallb_forall. intros t Ht. apply same_shape_true.
  revert t Ht. now apply Forall_forall.
Qed.

(** A tensor of another shape anywhere in the list makes [stack] raise. *)
Lemma stack_mismatch (t0 t : Tensor) (vs : list value) :
  In (VTensor t) vs -> shape t <> shape t0 ->
  exists e, Torch.stack (VTensor t0 :: vs) = Err e.
Proof.
  intros Hin Hne. unfold Torch.stack. simpl.
  destruct (list_comprehension Torch.expect_tensor vs) as [ts|e] eqn:E; simpl;
    [|eauto].
  replace (forallb (fun t1 => Torch.same_shape (shape t1) (shape t0)) ts) with false.
  - rewrite andb_false_r. eauto.
  - symmetry. apply not_true_is_false. intros Hall.
    rewrite forallb_forall in Hall.
    apply Hne, same_shape_true, Hall. now apply (expect_tensors_In vs).
Qed.

(** The bare [except]: whatever makes [stack] raise, the first value of
    the list stands for the whole list. *)
Lemma fallback_is_first_value (v : value) (vs : list value) (e : exn) :
  Torch.stack (v :: vs) = Err e -> stack_or_first (v :: vs) = Ok v.
Proof. unfold stack_or_first. now intros ->. Qed.

Lemma mismatch_keeps_first_tensor (key : string) (t0 t : Tensor) (vs : list value) :
  String.eqb key "run_id" = false ->
  In (VTensor t) vs -> shape t <> shape t0 ->
  field_to_tensor key (VTensor t0 :: vs) = Ok t0.
Proof.
  intros Hkey Hin Hne. unfold field_to_tensor. rewrite Hkey.
  destruct (stack_mismatch t0 t vs Hin Hne) as (e & He).
  now rewrite (fallback_is_first_value _ _ _ He).
Qed.

Lemma arrays_keep_first_array (key : string) (sh : list nat) (d : list Q)
  (vs : list value) :
  String.eqb key "run_id" = false ->
  field_to_tensor key (VArray sh d :: vs) = Ok (mkTensor sh d).
Proof. intros Hkey. unfold field_to_tensor. now rewrite Hkey. Qed.

Lemma single_tensor_keeps_axis (key : string) (t : Tensor) :
  String.eqb key "run_id" = false ->
  field_to_tensor key [VTensor t] = Ok (mkTensor (1%nat :: shape t) (data t)).
Proof.
  intros Hkey. unfold field_to_tensor, stack_or_first. rewrite Hkey.
  change [VTensor t] with (map VTensor [t]).
  rewrite (stack_uniform t [] (Forall_nil _)). simpl. rewrite app_nil_r.
  now destruct t.
Qed.

(** C1.  A group of two records whose field ["x"] has the shapes (3,4)
    and (3,5) is converted without any error: the batch that is yielded
    holds, under ["x"], the tensor of the first record alone. *)
Theorem mismatched_shapes_pass_silently :
  convert_group [record_17; record_3x5]
  = Ok [("run_id", mkTensor [2%nat] [17%Q; 3%Q]); ("x", tensor_3x4)] /\
  __iter__ (__init__ [record_17; record_3x5] 2 false false) []
  = Yield [("run_id", mkTensor [2%nat] [17%Q; 3%Q]); ("x", tensor_3x4)] Stop.
Proof. split; reflexivity. Qed.

(** C6.  A batch formed from the single record [record_array], whose
    field ["x"] is an array of shape (3,4) that is not a tensor, holds
    under ["x"] a tensor of shape (3,4): there is no leading axis of
    size one. *)
Theorem single_array_record_is_squeezed :
  convert_group [record_array]
  = Ok [("run_id", mkTensor [1%nat] [5%Q]);
        ("x", mkTensor [3; 4]%nat (repeat 1%Q 12))] /\
  __iter__ (__init__ [record_array] 1 false false) []
  = Yield [("run_id", mkTensor [1%nat] [5%Q]);
           ("x", mkTensor [3; 4]%nat (repeat 1%Q 12))] Stop.
Proof. split; reflexivity. Qed.

(** C8.  A group of two records whose field ["x"] is an array that is
    not a tensor is converted to a batch that holds, under ["x"], the
    coerced array of the first record only; the second record's values
    are absent. *)
Theorem array_group_keeps_first_record :
  convert_group [record_array; record_array_b]
  = Ok [("run_id", mkTensor [2%nat] [5%Q; 6%Q]);
        ("x", mkTensor [3; 4]%nat (repeat 1%Q 12))] /\
  __iter__ (__init__ [record_array; record_array_b] 2 false false) []
  = Yield [("run_id", mkTensor [2%nat] [5%Q; 6%Q]);
           ("x", mkTensor [3; 4]%nat (repeat 1%Q 12))] Stop.
Proof. split; reflexivity. Qed.

(** ** Passes that run to their end *)

Lemma list_comprehension_succeeds (A B : Type) (f : A -> result B) (xs : list A) :
  Forall (fun x => is_ok (f x) = true) xs ->
  exists ys, list_comprehension f xs = Ok ys.
Proof.
  induction 1 as [|x xs Hx _ (ys & IH)]; simpl; [eauto|].
  destruct (f x); [|discriminate]. rewrite IH. simpl. eauto.
Qed.

Lemma values_of_In (k : string) (v : value) (batch : list record) :
  In v (values_of k batch) -> exists r, In r batch /\ In (k, v) r.
Proof.
  unfold values_of, items_of. intros Hin.
  apply in_flat_map in Hin. destruct Hin as (r & Hr & Hv).
  apply in_map_iff in Hv. destruct Hv as ([k' v'] & <- & Hf).
  apply filter_In in Hf. destruct Hf as [Hf Hk]. simpl in Hk.
  apply String.eqb_eq in Hk. subst k'. exists r. auto.
Qed.

Lemma In_dict_get (V : Type) (k : string) (v : V) (d : dict V) :
  well_keyed d -> In (k, v) d -> dict_get k d = Some v.
Proof.
  unfold well_keyed.
  induction d as [|[k0 w] d IH]; simpl; intros Hnd Hin; [contradiction|].
  inversion Hnd as [|? ? Hnot Hnd']; subst.
  destruct Hin as [[= -> ->]|Hin].
  - now rewrite String.eqb_refl.
  - destruct (String.eqb_spec k k0) as [->|Hne]; [|now apply IH].
    exfalso. apply Hnot. now apply (in_map fst _ (k0, v)).
Qed.

Lemma identifiers_convert (vs : list value) :
  Forall (fun v => value_converts "run_id" v = true) vs ->
  exists ids,
    list_comprehension run_id_to_int vs = Ok ids /\
    Forall (fun n => Z.abs n <= 2 ^ 53) ids.
Proof.
  unfold value_converts. simpl.
  induction 1 as [|v vs Hv _ (ids & IHc & IHb)]; simpl; [eauto|].
  destruct (run_id_to_int v) as [n|]; [|discriminate].
  rewrite IHc. simpl. exists (n :: ids). split; [reflexivity|].
  constructor; [now apply float32_of_int_fits | exact IHb].
Qed.

Lemma field_converts (key : string) (vs : list value) :
  vs <> [] ->
  Forall (fun v => value_converts key v = true) vs ->
  exists t, field_to_tensor key vs = Ok t.
Proof.
  intros Hne Hall. unfold field_to_tensor.
  destruct (String.eqb_spec key "run_id") as [->|Hkey].
  - destruct (identifiers_convert vs Hall) as (ids & -> & Hb).
    simpl. rewrite (of_ints_rounds ids Hb). eauto.
  - unfold value_converts in Hall.
    apply String.eqb_neq in Hkey. rewrite Hkey in *.
    unfold stack_or_first. destruct (Torch.stack vs); simpl; [eauto|].
    destruct vs as [|v vs]; [congruence|]. inversion Hall as [|? ? Hv _]; subst.
    destruct v; simpl; eauto; discriminate.
Qed.

Lemma batch_to_tensor_from_succeeds (items : dict (list value)) :
  (forall k vs, In (k, vs) items -> exists t, field_to_tensor k vs = Ok t) ->
  forall acc, exists tb, batch_to_tensor_from acc items = Ok tb.
Proof.
  induction items as [|[key values] rest IH]; intros Hall acc; simpl; [eauto|].
  destruct (Hall key values (or_introl eq_refl)) as (t & ->). simpl.
  apply IH. intros k vs Hin. apply Hall. now right.
Qed.

(** A group of records that convert one by one converts as a whole. *)
Lemma convert_group_succeeds (batch : list record) :
  Forall record_converts batch -> exists tb, convert_group batch = Ok tb.
Proof.
  intros Hall. apply batch_to_tensor_from_succeeds. intros k vs Hin.
  apply (In_dict_get _ _ _ _ (combine_batch_dicts_well_keyed batch)) in Hin.
  rewrite combine_batch_dicts_get in Hin.
  assert (vs = values_of k batch /\ vs <> []) as [-> Hne].
  { destruct (values_of k batch); simpl in Hin; [discriminate|].
    injection Hin as <-. split; [reflexivity | discriminate]. }
  apply field_converts; [assumption|].
  apply Forall_forall. intros v Hv.
  destruct (values_of_In _ _ _ Hv) as (r & Hr & Hkv).
  rewrite Forall_forall in Hall. exact (Hall r Hr k v Hkv).
Qed.

Lemma yield_all_finishes (A B : Type) (convert : list A -> result B)
  (groups : list (list A)) :
  Forall (fun g => exists b, convert g = Ok b) groups ->
  finished (yield_all convert groups) = true.
Proof.
  unfold finished. induction 1 as [|g gs (b & Hb) _ IH]; simpl; [reflexivity|].
  rewrite Hb. simpl. exact IH.
Qed.

(** A pass over records that all convert raises nothing. *)
Lemma pass_finishes (self : DataLoader) (permutation : list nat) :
  1 <= batch_size self ->
  (shuffle self = true -> random_permutation (dataset_len self) permutation) ->
  Forall record_converts (dataset self) ->
  finished (__iter__ self permutation) = true.
Proof.
  intros Hbs Hperm Hall.
  rewrite (iter_as_groups self permutation Hperm).
  apply yield_all_finishes, Forall_forall.
  intros batch Hbatch. apply in_map_iff in Hbatch.
  destruct Hbatch as (g & <- & Hg).
  apply convert_group_succeeds, Forall_forall.
  intros r Hr. unfold records_of in Hr. apply in_map_iff in Hr.
  destruct Hr as (i & <- & Hi).
  assert (In i (index_iterator self permutation)) as Hord.
  { destruct (index_groups_structure self permutation Hbs Hperm)
      as (full & rem & Hsplit & _ & Hgs & _ & _).
    rewrite Hsplit. apply in_or_app. rewrite Hgs in Hg.
    apply in_app_or in Hg. destruct Hg as [Hg|Hg].
    - left. apply in_concat. eauto.
    - right. unfold tail_group in Hg.
      destruct ((0 <? Z.of_nat (List.length rem)) && negb (drop_last self));
        [|contradiction].
      destruct Hg as [<-|[]]. exact Hi. }
  apply (Permutation_in _ (index_iterator_permutation self permutation Hperm)) in Hord.
  apply in_seq in Hord. rewrite Forall_forall in Hall.
  apply Hall, nth_In. unfold dataset_len in Hord. lia.
Qed.

(** ** Length of a pass *)

(** C2.  For a batch size of at least one, [__len__] returns the floor
    of [N / batch_size] when [drop_last] is set and its ceiling
    otherwise; that many groups are closed by the loop of [__iter__],
    a pass never yields more batches, and a pass that ends without an
    exception yields exactly that many, which is so whenever every
    record of the dataset converts. *)
Theorem len_counts_batches (self : DataLoader) (permutation : list nat) :
  1 <= batch_size self ->
  (shuffle self = true -> random_permutation (dataset_len self) permutation) ->
  exists l : Z,
    __len__ self = Ok l /\
    (if drop_last self
     then is_floor (Z.of_nat (dataset_len self)) (batch_size self) l
     else is_ceil (Z.of_nat (dataset_len self)) (batch_size self) l) /\
    Z.of_nat (List.length (index_groups self permutation)) = l /\
    Z.of_nat (List.length (yielded (__iter__ self permutation))) <= l /\
    (finished (__iter__ self permutation) = true ->
     Z.of_nat (List.length (yielded (__iter__ self permutation))) = l) /\
    (Forall record_converts (dataset self) ->
     finished (__iter__ self permutation) = true).
Proof.
  intros Hbs Hperm.
  pose proof (index_groups_count self permutation Hbs Hperm) as Hcount.
  pose proof (pass_finishes self permutation Hbs Hperm) as Hfinishes.
  rewrite (iter_as_groups self permutation Hperm) in *.
  eexists. split; [apply (len_value self Hbs)|].
  split; [|split; [exact Hcount|split; [|split; [|exact Hfinishes]]]].
  - destruct (drop_last self); [apply floor_spec | apply ceil_spec]; lia.
  - rewrite <- Hcount.
    pose proof (yield_all_prefix _ _ convert_group
                  (map (records_of self) (index_groups self permutation))) as Hle.
    rewrite length_map in Hle. lia.
  - intros Hfin. rewrite (yield_all_finished _ _ _ _ Hfin), length_map. exact Hcount.
Qed.

Lemma len_counts_batches_witness :
  exists l : Z,
    __len__ (sample_loader false) = Ok l /\
    is_ceil 5 2 l /\
    Z.of_nat (List.length (index_groups (sample_loader false) sample_permutation)) = l /\
    Z.of_nat (List.length (yielded (__iter__ (sample_loader false) sample_permutation))) <= l /\
    (finished (__iter__ (sample_loader false) sample_permutation) = true ->
     Z.of_nat (List.length (yielded (__iter__ (sample_loader false) sample_permutation))) = l) /\
    (Forall record_converts (dataset (sample_loader false)) ->
     finished (__iter__ (sample_loader false) sample_permutation) = true).
Proof.
  apply (len_counts_batches (sample_loader false) sample_permutation).
  - simpl. lia.
  - apply sample_permutation_drawn.
Defined.

Example sample_pass_finishes :
  finished (__iter__ (sample_loader false) sample_permutation) = true /\
  List.length (yielded (__iter__ (sample_loader false) sample_permutation)) = 3%nat /\
  __len__ (sample_loader false) = Ok 3.
Proof. repeat split; reflexivity. Qed.


(** * Further properties of the loader *)

(** ** Batch sizes that never fill a group *)

Lemma groups_never_closed (bs : Z) (dl : bool) :
  forall order acc,
    bs <= 0 \/ Z.of_nat (List.length acc + List.length order) < bs ->
    groups_from bs dl order acc = tail_group dl (acc ++ order).
Proof.
  unfold groups_from.
  induction order as [|i rest IH]; intros acc Hbs.
  - rewrite app_nil_r. unfold tail_group. simpl.
    destruct ((0 <? Z.of_nat (List.length acc)) && negb dl); reflexivity.
  - simpl in *. rewrite length_app. simpl.
    destruct (Z.of_nat (List.length acc + 1) =? bs) eqn:E;
      [apply Z.eqb_eq in E; lia|].
    rewrite IH by (rewrite length_app; simpl; lia).
    now rewrite <- app_assoc.
Qed.

Lemma index_groups_never_closed (self : DataLoader) (permutation : list nat) :
  (shuffle self = true -> random_permutation (dataset_len self) permutation) ->
  batch_size self <= 0 \/ Z.of_nat (dataset_len self) < batch_size self ->
  index_groups self permutation =
  if (0 <? Z.of_nat (dataset_len self)) && negb (drop_last self)
  then [index_iterator self permutation] else [].
Proof.
  intros Hperm Hbs. unfold index_groups. rewrite groups_never_closed.
  - unfold tail_group. simpl.
    now rewrite (index_iterator_length self permutation Hperm).
  - simpl. rewrite (index_iterator_length self permutation Hperm). exact Hbs.
Qed.

(** X1.  With a batch size that is zero, negative or larger than the
    dataset the loop never closes a group: the pass converts the whole
    traversal as one batch when there is a record and [drop_last] is
    off, and converts nothing otherwise. *)
Theorem unreachable_batch_size_gives_one_batch (self : DataLoader)
  (permutation : list nat) :
  (shuffle self = true -> random_permutation (dataset_len self) permutation) ->
  batch_size self <= 0 \/ Z.of_nat (dataset_len self) < batch_size self ->
  let whole :=
    if (0 <? Z.of_nat (dataset_len self)) && negb (drop_last self)
    then [index_iterator self permutation] else [] in
  index_groups self permutation = whole /\
  __iter__ self permutation = yield_all convert_group (map (records_of self) whole).
Proof.
  intros Hperm Hbs whole.
  pose proof (index_groups_never_closed self permutation Hperm Hbs) as Hg.
  fold whole in Hg.
  split; [exact Hg|]. rewrite <- Hg. apply iter_as_groups, Hperm.
Qed.

Lemma unreachable_batch_size_gives_one_batch_witness :
  index_groups (__init__ five_records 0 false false) [] = [[0; 1; 2; 3; 4]%nat] /\
  __iter__ (__init__ five_records 0 false false) []
  = yield_all convert_group
      (map (records_of (__init__ five_records 0 false false)) [[0; 1; 2; 3; 4]%nat]).
Proof.
  apply (unreachable_batch_size_gives_one_batch
           (__init__ five_records 0 false false) []).
  - discriminate.
  - left. simpl. lia.
Defined.

Lemma Qceiling_truediv_neg (a : Z) (p : positive) :
  Qceiling (inject_Z a / inject_Z (Z.neg p)) = - (a / Z.pos p).
Proof.
  unfold Qceiling, Qfloor, Qdiv, Qmult, Qinv, Qopp, inject_Z. simpl.
  f_equal. f_equal. lia.
Qed.

(** X2.  The agreement of [__len__] with a pass needs a positive batch
    size: over a dataset with at least one record and a batch size of
    zero or less, [__len__] never returns the number of groups the pass
    converts, and for a batch size of zero it raises
    [ZeroDivisionError]. *)
Theorem len_needs_positive_batch_size (self : DataLoader)
  (permutation : list nat) :
  (shuffle self = true -> random_permutation (dataset_len self) permutation) ->
  dataset self <> [] ->
  batch_size self <= 0 ->
  __len__ self <> Ok (Z.of_nat (List.length (index_groups self permutation))) /\
  (batch_size self = 0 -> __len__ self = Err ZeroDivisionError).
Proof.
  intros Hperm Hne Hbs.
  pose proof (index_groups_never_closed self permutation Hperm
                (or_introl Hbs)) as Hg.
  assert (0 < Z.of_nat (dataset_len self)) as Hn.
  { unfold dataset_len. destruct (dataset self); [congruence | simpl; lia]. }
  rewrite Hg. apply Z.ltb_lt in Hn. rewrite Hn. apply Z.ltb_lt in Hn.
  unfold __len__, floordiv, truediv.
  destruct (batch_size self) as [|p|p] eqn:Eb; try lia.
  - simpl. split; [destruct (drop_last self); discriminate |].
    intros _. destruct (drop_last self); reflexivity.
  - split; [|discriminate].
    destruct (drop_last self); simpl.
    + intros [= H].
      pose proof (Z.div_mod (Z.of_nat (dataset_len self)) (Z.neg p) ltac:(lia)).
      pose proof (Z.mod_neg_bound (Z.of_nat (dataset_len self)) (Z.neg p)
                    ltac:(lia)).
      nia.
    + rewrite Qceiling_truediv_neg. intros [= H].
      pose proof (Z.div_pos (Z.of_nat (dataset_len self)) (Z.pos p)
                    ltac:(lia) ltac:(lia)).
      lia.
Qed.

Lemma len_needs_positive_batch_size_witness :
  __len__ (__init__ five_records 0 false false)
  <> Ok (Z.of_nat (List.length (index_groups (__init__ five_records 0 false false) []))) /\
  (0 = 0 -> __len__ (__init__ five_records 0 false false) = Err ZeroDivisionError).
Proof.
  apply (len_needs_positive_batch_size (__init__ five_records 0 false false) []).
  - discriminate.
  - discriminate.
  - simpl. lia.
Defined.

(** ** Keeping or dropping the last batch *)

(** X3.  For a batch size of at least one, keeping the last batch adds
    one to [__len__] exactly when the number of records is not a
    multiple of the batch size, and nothing otherwise. *)
Theorem drop_last_costs_at_most_one (ds : list record) (bs : Z) (sh : bool) :
  1 <= bs ->
  exists dropped kept,
    __len__ (__init__ ds bs sh true) = Ok dropped /\
    __len__ (__init__ ds bs sh false) = Ok kept /\
    kept = dropped + (if Z.of_nat (List.length ds) mod bs =? 0 then 0 else 1).
Proof.
  intros Hbs.
  rewrite (len_value (__init__ ds bs sh true) Hbs).
  rewrite (len_value (__init__ ds bs sh false) Hbs).
  do 2 eexists. split; [reflexivity|]. split; [reflexivity|].
  simpl. unfold dataset_len. simpl.
  pose proof (Z.div_mod (Z.of_nat (List.length ds)) bs ltac:(lia)) as Hdm.
  pose proof (Z.mod_pos_bound (Z.of_nat (List.length ds)) bs ltac:(lia)) as Hr.
  rewrite (ceil_of_groups (Z.of_nat (List.length ds))
             (Z.of_nat (List.length ds) / bs)
             (Z.of_nat (List.length ds) mod bs) bs) by lia.
  destruct (Z.eqb_spec (Z.of_nat (List.length ds) mod bs) 0) as [E|E].
  - rewrite E. reflexivity.
  - destruct (Z.ltb_spec 0 (Z.of_nat (List.length ds) mod bs)); [reflexivity | lia].
Qed.

Lemma drop_last_costs_at_most_one_witness :
  exists dropped kept,
    __len__ (__init__ five_records 2 false true) = Ok dropped /\
    __len__ (__init__ five_records 2 false false) = Ok kept /\
    kept = dropped + 1.
Proof.
  apply (drop_last_costs_at_most_one five_records 2 false). lia.
Defined.

(** ** When a field converts *)

(** X4.  Outside the identifier field, a list of values that starts
    with a tensor never makes the conversion raise, whatever follows
    it: the field becomes the stack of the list when [stack] accepts
    it and the first tensor otherwise.  A list that starts with a [str]
    raises [TypeError]. *)
Theorem tensor_first_field_never_raises (key : string) (t : Tensor)
  (vs : list value) :
  String.eqb key "run_id" = false ->
  (exists result,
      field_to_tensor key (VTensor t :: vs) = Ok result /\
      (Torch.stack (VTensor t :: vs) = Ok result \/
       (result = t /\ exists e, Torch.stack (VTensor t :: vs) = Err e))) /\
  (forall s, field_to_tensor key (VStr s :: vs) = Err TypeError).
Proof.
  intros Hkey. unfold field_to_tensor, stack_or_first. rewrite Hkey. split.
  - destruct (Torch.stack (VTensor t :: vs)) as [stacked|e]; simpl; eauto 6.
  - intros s. reflexivity.
Qed.

Lemma tensor_first_field_never_raises_witness :
  (exists result,
      field_to_tensor "x" [VTensor tensor_3x4; VTensor tensor_3x5; VStr "a"]
      = Ok result /\
      (Torch.stack [VTensor tensor_3x4; VTensor tensor_3x5; VStr "a"] = Ok result \/
       (result = tensor_3x4 /\
        exists e,
          Torch.stack [VTensor tensor_3x4; VTensor tensor_3x5; VStr "a"] = Err e))) /\
  (forall s,
      field_to_tensor "x" [VStr s; VTensor tensor_3x5; VStr "a"] = Err TypeError).
Proof.
  apply (tensor_first_field_never_raises "x" tensor_3x4
           [VTensor tensor_3x5; VStr "a"]).
  reflexivity.
Defined.

(** ** Fields of one shape *)

Lemma present_tensors (batch : list record) (key : string) (ts : list Tensor)
  (sh : list nat) :
  Forall2 (fun r t => dict_get key r = Some (VTensor t) /\ shape t = sh) batch ts ->
  present_values key batch = map VTensor ts /\
  Forall (fun t => shape t = sh) ts /\
  List.length batch = List.length ts.
Proof.
  unfold present_values.
  induction 1 as [|r t batch ts [Hr Ht] _ (IHv & IHs & IHl)]; simpl.
  - repeat split. constructor.
  - rewrite Hr, IHv, IHl. repeat split. now constructor.
Qed.

Lemma present_in_regrouped (batch : list record) (key : string) (v : value)
  (r : record) :
  Forall well_keyed batch ->
  In r batch -> dict_get key r = Some v ->
  dict_get key (combine_batch_dicts batch) = Some (present_values key batch).
Proof.
  intros Hwk Hr Hv.
  rewrite combine_batch_dicts_get, (values_of_present _ _ Hwk).
  assert (In v (present_values key batch)) as Hin.
  { unfold present_values. apply in_flat_map. exists r.
    rewrite Hv. split; [assumption | now left]. }
  destruct (present_values key batch); [contradiction | reflexivity].
Qed.

(** X5.  When every record of a non-empty group holds, under a key
    other than the identifier, a tensor of one and the same shape, the
    field converts, and the batch holds under that key the tensor with
    a new leading axis of the size of the group and the entries of the
    records one record after the other. *)
Theorem uniform_field_is_stacked (batch : list record) (key : string)
  (ts : list Tensor) (sh : list nat) :
  String.eqb key "run_id" = false ->
  Forall well_keyed batch ->
  batch <> [] ->
  Forall2 (fun r t => dict_get key r = Some (VTensor t) /\ shape t = sh) batch ts ->
  let stacked := mkTensor (List.length batch :: sh) (List.concat (map data ts)) in
  field_to_tensor key (present_values key batch) = Ok stacked /\
  (forall tensor_batch,
      convert_group batch = Ok tensor_batch ->
      dict_get key tensor_batch = Some stacked).
Proof.
  intros Hkey Hwk Hne Hall stacked.
  destruct (present_tensors batch key ts sh Hall) as (Hv & Hs & Hl).
  assert (field_to_tensor key (present_values key batch) = Ok stacked) as Hfield.
  { rewrite Hv. destruct ts as [|t0 ts].
    - destruct batch; [congruence | discriminate].
    - inversion Hs as [|? ? Ht0 Hts]; subst.
      unfold field_to_tensor, stack_or_first. rewrite Hkey.
      rewrite stack_uniform.
      + unfold stacked. simpl. rewrite Hl. reflexivity.
      + eapply Forall_impl; [|exact Hts]. intros t Ht. simpl in Ht.
        now rewrite Ht. }
  split; [exact Hfield|].
  intros tb Hrun.
  assert (dict_get key (combine_batch_dicts batch)
          = Some (present_values key batch)) as Hget.
  { destruct batch as [|r batch']; [congruence|].
    inversion Hall as [|? t ? ? [Hr _] _]; subst.
    apply (present_in_regrouped _ key (VTensor t) r Hwk (or_introl eq_refl) Hr). }
  destruct (batch_to_tensor_from_get _ [] tb _ _ Hrun
              (combine_batch_dicts_well_keyed batch) (dict_get_In _ _ _ _ Hget))
    as (t & Ht & Hlook).
  rewrite Hlook. congruence.
Qed.

Lemma uniform_field_is_stacked_witness :
  field_to_tensor "x" (present_values "x" [record_17; record_42])
  = Ok (mkTensor [2; 3; 4]%nat (List.concat (map data [tensor_3x4; tensor_3x4]))) /\
  (forall tensor_batch,
      convert_group [record_17; record_42] = Ok tensor_batch ->
      dict_get "x" tensor_batch
      = Some (mkTensor [2; 3; 4]%nat
                (List.concat (map data [tensor_3x4; tensor_3x4])))).
Proof.
  apply (uniform_field_is_stacked [record_17; record_42] "x"
           [tensor_3x4; tensor_3x4] [3; 4]%nat).
  - reflexivity.
  - repeat constructor; simpl; intuition discriminate.
  - discriminate.
  - repeat constructor.
Defined.

(** ** A pass that raises *)

Lemma yield_all_stops (A B : Type) (convert : list A -> result B)
  (before : list (list A)) (g : list A) (after : list (list A))
  (batches : list B) (e : exn) :
  Forall2 (fun g b => convert g = Ok b) before batches ->
  convert g = Err e ->
  yielded (yield_all convert (before ++ g :: after)) = batches /\
  raised (yield_all convert (before ++ g :: after)) = Some e.
Proof.
  intros Hok Herr.
  induction Hok as [|g' b before batches Hb _ [IHy IHr]]; simpl.
  - rewrite Herr. split; reflexivity.
  - rewrite Hb. simpl. rewrite IHy, IHr. split; reflexivity.
Qed.

(** X6.  The first group that does not convert ends the pass: the
    batches of the groups before it have been yielded, in order, the
    exception of that group leaves [__iter__], and no later group is
    converted. *)
Theorem pass_stops_at_first_failure (self : DataLoader) (permutation : list nat)
  (before : list (list nat)) (g : list nat) (after : list (list nat))
  (batches : list (dict Tensor)) (e : exn) :
  (shuffle self = true -> random_permutation (dataset_len self) permutation) ->
  index_groups self permutation = before ++ g :: after ->
  Forall2 (fun g b => convert_group (records_of self g) = Ok b) before batches ->
  convert_group (records_of self g) = Err e ->
  yielded (__iter__ self permutation) = batches /\
  raised (__iter__ self permutation) = Some e.
Proof.
  intros Hperm Hsplit Hok Herr.
  rewrite (iter_as_groups self permutation Hperm), Hsplit, map_app. simpl.
  apply yield_all_stops; [|exact Herr].
  clear Hsplit. induction Hok; simpl; constructor; assumption.
Qed.

Lemma pass_stops_at_first_failure_witness :
  let self := __init__ [record_17; record_42; record_unparseable; record_17;
                        record_42] 2 false false in
  yielded (__iter__ self [])
  = [[("run_id", mkTensor [2%nat] [17%Q; 42%Q]);
      ("x", mkTensor [2; 3; 4]%nat (repeat 1%Q 24))]] /\
  raised (__iter__ self []) = Some ValueError.
Proof.
  apply (pass_stops_at_first_failure
           (__init__ [record_17; record_42; record_unparseable; record_17;
                      record_42] 2 false false) []
           [[0; 1]%nat] [2; 3]%nat [[4]%nat]).
  - discriminate.
  - reflexivity.
  - repeat constructor.
  - reflexivity.
Defined.

(** ** The batches of an unshuffled pass *)

Lemma app_same_length (A : Type) (a c b d : list A) :
  List.length a = List.length c -> a ++ b = c ++ d -> a = c /\ b = d.
Proof.
  revert c. induction a as [|x a IH]; intros [|y c] Hlen Heq;
    simpl in *; try discriminate; [auto|].
  injection Heq as -> Heq. destruct (IH c ltac:(lia) Heq) as [-> ->]. auto.
Qed.

Lemma chunks_of_seq (b : nat) (full : list (list nat)) :
  forall (start n : nat) (rem : list nat),
    Forall (fun g => List.length g = b) full ->
    List.concat full ++ rem = seq start n ->
    full = map (fun k => seq (start + k * b) b) (seq 0 (List.length full)) /\
    rem = seq (start + List.length full * b) (List.length rem).
Proof.
  induction full as [|g full IH]; intros start n rem Hfull Heq; simpl in *.
  - rewrite Nat.add_0_r. split; [reflexivity|].
    rewrite Heq, length_seq. reflexivity.
  - apply Forall_cons_iff in Hfull. destruct Hfull as [Hg Hfull'].
    assert (n = b + (n - b))%nat as Hn.
    { apply (f_equal (@List.length nat)) in Heq.
      rewrite !length_app, length_seq in Heq. lia. }
    rewrite Hn, seq_app, <- app_assoc in Heq.
    apply app_same_length in Heq; [|now rewrite length_seq].
    destruct Heq as [Hgeq Hrest].
    destruct (IH _ _ _ Hfull' Hrest) as [Hf Hr].
    split.
    + rewrite Nat.add_0_r. f_equal; [exact Hgeq|].
      rewrite <- seq_shift, map_map.
      etransitivity; [exact Hf|].
      apply map_ext. intros k. f_equal. lia.
    + etransitivity; [exact Hr|]. f_equal. lia.
Qed.

(** X7.  Without [shuffle] and for a batch size [b] of at least one,
    the [k]-th group of a pass is the run of indices from [k * b] to
    [k * b + b - 1], for every [k] below [N / b]; unless [drop_last] is
    set, a last group holds the [N mod b] indices that remain, if any. *)
Theorem unshuffled_groups_are_consecutive (self : DataLoader)
  (permutation : list nat) :
  1 <= batch_size self ->
  shuffle self = false ->
  let b := Z.to_nat (batch_size self) in
  let n := dataset_len self in
  index_groups self permutation =
  map (fun k => seq (k * b) b) (seq 0 (n / b))
  ++ (if (0 <? n mod b)%nat && negb (drop_last self)
      then [seq (n / b * b) (n mod b)] else []).
Proof.
  intros Hbs Hsh b n.
  assert (shuffle self = true -> random_permutation (dataset_len self) permutation)
    as Hperm by (rewrite Hsh; discriminate).
  destruct (index_groups_structure self permutation Hbs Hperm)
    as (full & rem & Hsplit & Hfull & Hg & Hq & Hr).
  unfold index_iterator in Hsplit. rewrite Hsh in Hsplit. symmetry in Hsplit.
  assert (Z.of_nat b = batch_size self) as Hb by (unfold b; lia).
  assert (Forall (fun g => List.length g = b) full) as Hfull'.
  { eapply Forall_impl; [|exact Hfull]. unfold full_group. intros g Hgl. lia. }
  destruct (chunks_of_seq b full 0 (dataset_len self) rem Hfull' Hsplit)
    as [Hf Hrem].
  assert (List.length full = n / b)%nat as Hq'.
  { apply Nat2Z.inj. rewrite Nat2Z.inj_div, Hb. exact Hq. }
  assert (List.length rem = n mod b)%nat as Hr'.
  { apply Nat2Z.inj. rewrite Nat2Z.inj_mod, Hb. exact Hr. }
  rewrite Hg. f_equal.
  - rewrite Hf at 1. now rewrite Hq'.
  - unfold tail_group. rewrite Hrem at 2. simpl. rewrite Hq', Hr'.
    destruct (n mod b)%nat; reflexivity.
Qed.

Lemma unshuffled_groups_are_consecutive_witness :
  index_groups (__init__ five_records 2 false false) []
  = [[0; 1]; [2; 3]; [4]]%nat.
Proof.
  apply (unshuffled_groups_are_consecutive (__init__ five_records 2 false false) []).
  - simpl. lia.
  - reflexivity.
Defined.

(** ** Field names of a re-grouped batch *)

Lemma keys_combine_item (bd : dict (list value)) (k : string) (v : value) :
  keys (combine_item bd (k, v)) = if dict_mem k bd then keys bd else keys bd ++ [k].
Proof.
  unfold combine_item, dict_mem.
  destruct (dict_get k bd) as [vs|] eqn:E; simpl.
  - rewrite E, keys_dict_set. unfold dict_mem. now rewrite E.
  - rewrite dict_get_set, String.eqb_refl, !keys_dict_set.
    unfold dict_mem. now rewrite dict_get_set, String.eqb_refl, E.
Qed.

Lemma keys_fold_known (r : record) :
  forall bd,
    (forall k, In k (keys r) -> In k (keys bd)) ->
    keys (fold_left combine_item r bd) = keys bd.
Proof.
  induction r as [|[k v] r IH]; intros bd Hknown; cbn [fold_left]; [reflexivity|].
  assert (keys (combine_item bd (k, v)) = keys bd) as Hk.
  { rewrite keys_combine_item. unfold dict_mem.
    destruct (dict_get k bd) eqn:E; [reflexivity|].
    exfalso. apply (proj1 (dict_get_keys _ k bd)); [|exact E].
    apply Hknown. now left. }
  rewrite IH; [exact Hk|].
  intros k' Hin. rewrite Hk. apply Hknown. now right.
Qed.

Lemma keys_fold_fresh (r : record) :
  forall bd,
    NoDup (keys bd ++ keys r) ->
    keys (fold_left combine_item r bd) = keys bd ++ keys r.
Proof.
  induction r as [|[k v] r IH]; intros bd Hnd; cbn [fold_left].
  - simpl. now rewrite app_nil_r.
  - assert (keys (combine_item bd (k, v)) = keys bd ++ [k]) as Hk.
    { rewrite keys_combine_item. unfold dict_mem.
      destruct (dict_get k bd) eqn:E; [|reflexivity].
      exfalso. simpl in Hnd. apply NoDup_remove_2 in Hnd. apply Hnd, in_or_app.
      left. apply dict_get_keys. congruence. }
    rewrite IH; rewrite Hk, <- app_assoc; [reflexivity | exact Hnd].
Qed.

Lemma keys_fold_extends (r : record) :
  forall bd, exists more, keys (fold_left combine_item r bd) = keys bd ++ more.
Proof.
  induction r as [|[k v] r IH]; intros bd; cbn [fold_left].
  - exists []. now rewrite app_nil_r.
  - destruct (IH (combine_item bd (k, v))) as (more & ->).
    rewrite keys_combine_item. destruct (dict_mem k bd); [eauto|].
    rewrite <- app_assoc. eauto.
Qed.

Lemma present_everywhere (key : string) (batch : list record) :
  Forall (fun r => In key (keys r)) batch ->
  List.length (present_values key batch) = List.length batch.
Proof.
  unfold present_values.
  induction 1 as [|r batch Hr _ IH]; simpl; [reflexivity|].
  apply dict_get_keys in Hr. destruct (dict_get key r); [|congruence].
  simpl. now rewrite IH.
Qed.

(** X8.  When all records of a non-empty group have the same field
    names in the same order, the re-grouped batch has exactly these
    names in that order, each with one value per record, and a batch
    that converts has them too. *)
Theorem homogeneous_group_keeps_fields (batch : list record) (ks : list string) :
  batch <> [] ->
  NoDup ks ->
  Forall (fun r => keys r = ks) batch ->
  keys (combine_batch_dicts batch) = ks /\
  (forall key, In key ks ->
               dict_get key (combine_batch_dicts batch)
               = Some (present_values key batch) /\
               List.length (present_values key batch) = List.length batch) /\
  (forall tensor_batch, convert_group batch = Ok tensor_batch ->
                        keys tensor_batch = ks).
Proof.
  intros Hne Hnd Hall.
  assert (keys (combine_batch_dicts batch) = ks) as Hkeys.
  { unfold combine_batch_dicts. destruct batch as [|r batch]; [congruence|].
    inversion Hall as [|? ? Hr Hrest]; subst. cbn [fold_left].
    assert (keys (fold_left combine_item r []) = keys r) as H0
      by (now rewrite keys_fold_fresh).
    revert H0. generalize (fold_left combine_item r []) as bd.
    clear Hne Hall.
    induction Hrest as [|r' batch Hr' _ IH]; intros bd Hbd; cbn [fold_left];
      [exact Hbd|].
    apply IH. rewrite keys_fold_known; [exact Hbd|].
    intros k Hk. now rewrite Hbd, <- Hr'. }
  assert (Forall well_keyed batch) as Hwk.
  { eapply Forall_impl; [|exact Hall]. intros r Hr. unfold well_keyed.
    simpl in Hr. now rewrite Hr. }
  split; [exact Hkeys|]. split.
  - intros key Hin. split.
    + destruct batch as [|r batch']; [congruence|].
      inversion Hall as [|? ? Hr _]; subst.
      destruct (dict_get key r) as [v|] eqn:E.
      * apply (present_in_regrouped _ key v r Hwk (or_introl eq_refl) E).
      * exfalso. rewrite <- Hr in Hin.
        exact (proj1 (dict_get_keys _ key r) Hin E).
    + apply present_everywhere. eapply Forall_impl; [|exact Hall].
      intros r Hr. simpl in Hr. now rewrite Hr.
  - intros tb Hrun. rewrite <- Hkeys.
    apply (batch_to_tensor_from_keys _ [] tb Hrun).
    apply combine_batch_dicts_well_keyed.
Qed.

Lemma homogeneous_group_keeps_fields_witness :
  keys (combine_batch_dicts [record_17; record_42; record_3x5]) = ["run_id"; "x"] /\
  (forall key, In key ["run_id"; "x"] ->
               dict_get key (combine_batch_dicts [record_17; record_42; record_3x5])
               = Some (present_values key [record_17; record_42; record_3x5]) /\
               List.length (present_values key [record_17; record_42; record_3x5])
               = 3%nat) /\
  (forall tensor_batch,
      convert_group [record_17; record_42; record_3x5] = Ok tensor_batch ->
      keys tensor_batch = ["run_id"; "x"]).
Proof.
  apply (homogeneous_group_keeps_fields [record_17; record_42; record_3x5]
           ["run_id"; "x"]).
  - discriminate.
  - repeat constructor; simpl; intuition discriminate.
  - repeat constructor.
Defined.

Lemma keys_regroup_extends (batch : list record) :
  forall bd,
  exists more,
    keys (fold_left (fun batch_dict data_dict =>
                       fold_left combine_item data_dict batch_dict) batch bd)
    = keys bd ++ more.
Proof.
  induction batch as [|r batch IH]; intros bd; cbn [fold_left].
  - exists []. now rewrite app_nil_r.
  - destruct (IH (fold_left combine_item r bd)) as (more & Hm).
    destruct (keys_fold_extends r bd) as (more' & Hm').
    exists (more' ++ more). now rewrite Hm, Hm', app_assoc.
Qed.

(** X9.  Re-grouping two groups laid end to end continues the
    re-grouping of the first: its field names stay first and in their
    order, and under every key the values of the first group are
    followed by those the second group files under it. *)
Theorem regrouping_continues (first second : list record) :
  (exists more,
      keys (combine_batch_dicts (first ++ second))
      = keys (combine_batch_dicts first) ++ more) /\
  (forall key,
      dict_get key (combine_batch_dicts (first ++ second))
      = extend (dict_get key (combine_batch_dicts first)) (values_of key second)).
Proof.
  split.
  - unfold combine_batch_dicts. rewrite fold_left_app.
    apply keys_regroup_extends.
  - intros key. rewrite !combine_batch_dicts_get. unfold values_of.
    now rewrite flat_map_app, <- extend_extend.
Qed.

(** ** Signs and empty suffixes of identifiers *)

(** X10.  An identifier that ends with the separator raises
    [ValueError]; a minus sign between the last separator and the digits
    is read as the sign of the number. *)
Theorem identifier_suffix_edge_cases (prefix digits : string) (n : Z) :
  PyStr.decimal digits = Some n ->
  run_id_to_int (VStr (prefix ++ "_")) = Err ValueError /\
  run_id_to_int (VStr (prefix ++ "_-" ++ digits)) = Ok (- n).
Proof.
  intros Hd. rewrite !run_id_to_int_str. split.
  - change (prefix ++ "_")%string with (prefix ++ String "_" "")%string.
    now rewrite after_last_app.
  - change (prefix ++ "_-" ++ digits)%string
      with (prefix ++ String "_" (String "-" digits))%string.
    assert (exists c rest, digits = String c rest /\
                           PyStr.digits_from 0 digits = Some n) as (c & rest & -> & Hf).
    { destruct digits as [|c rest]; [discriminate | eauto]. }
    rewrite after_last_app
      by (change (has_char "_" (String "-" (String c rest)))
            with (has_char "_" (String c rest));
          exact (digits_have_no_separator _ _ _ Hf)).
    unfold PyStr.int, PyStr.strip.
    change (PyStr.lstrip (String "-" (String c rest)))
      with (String "-" (String c rest)).
    assert (PyStr.rstrip (String "-" (String c rest))
            = String "-" (String c rest)) as Hstrip.
    { change (PyStr.rstrip (String "-" (String c rest)))
        with (match PyStr.rstrip (String c rest) with
              | EmptyString =>
                  if PyStr.is_space "-" then EmptyString
                  else String "-" EmptyString
              | String c' t => String "-" (String c' t)
              end).
      now rewrite (digits_rstrip _ _ _ Hf). }
    rewrite Hstrip. change (Ascii.eqb "-" "-") with true. cbv iota.
    now rewrite Hd.
Qed.

Lemma identifier_suffix_edge_cases_witness :
  run_id_to_int (VStr "run_") = Err ValueError /\
  run_id_to_int (VStr "run_-5") = Ok (- 5).
Proof.
  apply (identifier_suffix_edge_cases "run" "5" 5). reflexivity.
Defined.

(** * The plotting module *)

(** ** The pictures [visualizations] makes *)

Section VisualizationLoop.

Import Visualization.

Variable datapoint : Type.
Variable plot_datapoint : string -> datapoint -> result unit.
Variable amount_datapoints_to_visu : Z.
Variable plot_path : string.

Local Notation "'visit'" :=
  (visit_batch plot_datapoint amount_datapoints_to_visu plot_path).

(** Walking a batch and then another is walking them laid end to end. *)
Lemma visit_batch_app (b1 b2 : list datapoint) :
  forall current_id,
    visit (b1 ++ b2) current_id =
    match visit b1 current_id with
    | (log, Exhausted current_id') =>
        let (log', ending) := visit b2 current_id' in (log ++ log', ending)
    | (log, ending) => (log, ending)
    end.
Proof.
  induction b1 as [|d b1 IH]; intros current_id; simpl.
  - now destruct (visit_batch _ _ _ b2 current_id).
  - destruct (plot_datapoint _ d); [|reflexivity].
    destruct (Z.of_nat current_id >=? amount_datapoints_to_visu - 1);
      [reflexivity|].
    rewrite IH.
    destruct (visit_batch _ _ _ b1 (S current_id)) as [log [id'| |e]];
      try reflexivity.
    now destruct (visit_batch _ _ _ b2 id').
Qed.

Lemma visit_batches_flat (batches : list (list datapoint)) :
  forall current_id,
    visit_batches plot_datapoint amount_datapoints_to_visu plot_path
      batches current_id
    = visit (List.concat batches) current_id.
Proof.
  induction batches as [|b batches IH]; intros current_id; simpl; [reflexivity|].
  rewrite visit_batch_app.
  destruct (visit b current_id) as [log [id'| |e]]; try reflexivity.
  now rewrite IH.
Qed.

Hypothesis plot_returns : forall name d, plot_datapoint name d = Ok tt.

Lemma visit_batch_log (batch : list datapoint) :
  forall current_id k,
    k = Nat.min (List.length batch)
          (Z.to_nat (Z.max 1 (amount_datapoints_to_visu - Z.of_nat current_id))) ->
    fst (visit batch current_id)
    = combine (map (name_pic plot_path) (seq current_id k)) (firstn k batch) /\
    (forall e, snd (visit batch current_id) <> Raised e).
Proof.
  induction batch as [|d batch IH]; intros current_id k Hk;
    cbn [visit_batch List.length] in *.
  - subst k. split; [reflexivity | discriminate].
  - rewrite plot_returns.
    destruct (Z.geb_spec (Z.of_nat current_id) (amount_datapoints_to_visu - 1))
      as [Hge|Hlt].
    + replace k with 1%nat by lia.
      split; [reflexivity | discriminate].
    + destruct (IH (S current_id) (Nat.pred k) ltac:(lia)) as [Hlog Hend].
      destruct (visit_batch _ _ _ batch (S current_id)) as [log ending].
      cbn [fst snd] in *.
      replace k with (S (Nat.pred k)) by lia.
      split; [simpl; now rewrite Hlog | exact Hend].
Qed.

End VisualizationLoop.

(** X11.  When the work on a datapoint never raises, [visualizations]
    makes the pictures of the first [k] datapoints of the pass, in
    order, under the names [plot_path_0] to [plot_path_(k-1)], and
    returns without an exception; [k] is the requested amount, capped
    by [len(dataloader.dataset)] and by what the pass yields, but never
    less than one when the pass yields a datapoint: an amount of zero or
    less gives one picture. *)
Theorem visualizations_numbers_the_first_pictures (datapoint : Type)
  (plot_datapoint : string -> datapoint -> result unit)
  (dataset_len : nat) (batches : list (list datapoint))
  (amount_datapoints_to_visu : Visualization.amount) (plot_path : string) :
  (forall name d, plot_datapoint name d = Ok tt) ->
  let capped :=
    match amount_datapoints_to_visu with
    | Visualization.Inf => Z.of_nat dataset_len
    | Visualization.Count n => Z.min n (Z.of_nat dataset_len)
    end in
  let k := Nat.min (List.length (List.concat batches)) (Z.to_nat (Z.max 1 capped)) in
  Visualization.visualizations plot_datapoint dataset_len batches
    amount_datapoints_to_visu plot_path
  = (combine (map (Visualization.name_pic plot_path) (seq 0 k))
       (firstn k (List.concat batches)), None).
Proof.
  intros Hplot capped k. unfold Visualization.visualizations.
  assert ((if Visualization.amount_exceeds amount_datapoints_to_visu
                (Z.of_nat dataset_len)
           then Z.of_nat dataset_len
           else match amount_datapoints_to_visu with
                | Visualization.Count n => n
                | Visualization.Inf => Z.of_nat dataset_len
                end) = capped) as ->.
  { unfold capped. destruct amount_datapoints_to_visu as [|n]; simpl;
      [reflexivity|].
    destruct (Z.ltb_spec (Z.of_nat dataset_len) n); lia. }
  rewrite visit_batches_flat.
  destruct (visit_batch_log datapoint plot_datapoint capped plot_path Hplot
              (List.concat batches) 0%nat k) as [Hlog Hend].
  { unfold k. now rewrite Z.sub_0_r. }
  destruct (Visualization.visit_batch _ _ _ _ _) as [log ending].
  simpl in *. rewrite Hlog.
  destruct ending as [id| |e]; try reflexivity. now destruct (Hend e).
Qed.

Lemma visualizations_numbers_the_first_pictures_witness :
  Visualization.visualizations (fun (_ : string) (_ : nat) => Ok tt) 5
    [[10; 11]; [12; 13]; [14]]%nat (Visualization.Count 0) "pic"
  = ([("pic_0", 10%nat)], None).
Proof.
  apply (visualizations_numbers_the_first_pictures nat
           (fun _ _ => Ok tt) 5 [[10; 11]; [12; 13]; [14]]%nat
           (Visualization.Count 0) "pic").
  reflexivity.
Defined.

Example visualizations_three_of_five :
  Visualization.visualizations (fun (_ : string) (_ : nat) => Ok tt) 5
    [[10; 11]; [12; 13]; [14]]%nat (Visualization.Count 3) "pic"
  = ([("pic_0", 10%nat); ("pic_1", 11%nat); ("pic_2", 12%nat)], None).
Proof. reflexivity. Qed.

Example visualizations_all_by_default :
  fst (Visualization.visualizations (fun (_ : string) (_ : nat) => Ok tt) 5
         [[10; 11]; [12; 13]; [14]]%nat Visualization.Inf "pic")
  = [("pic_0", 10%nat); ("pic_1", 11%nat); ("pic_2", 12%nat);
     ("pic_3", 13%nat); ("pic_4", 14%nat)].
Proof. reflexivity. Qed.

(** ** [DataToVisualize] *)

(** X12.  A [DataToVisualize] never carries one of the four raw field
    names: each is replaced by its caption when the object is made, any
    other name is kept, and running [__post_init__] once more changes
    nothing. *)
Theorem constructed_name_is_a_caption (A : Type) (d : A) (n : string)
  (highs : Q * Q) (ia cfa ca : dict Visualization.argval) :
  let raw := ["Liquid Pressure [Pa]"; "Material ID"; "Permeability X [m^2]"; "SDF"] in
  let made := Visualization.__init__ d n highs ia cfa ca in
  ~ In (Visualization.name made) raw /\
  (~ In n raw -> Visualization.name made = n) /\
  Visualization.__post_init__ made = made.
Proof.
  intros raw made. unfold made, Visualization.__init__, Visualization.__post_init__.
  cbn [Visualization.name Visualization.data Visualization.extent_highs].
  destruct (String.eqb_spec n "Liquid Pressure [Pa]") as [->|H1];
    [repeat split; simpl; intuition discriminate|].
  destruct (String.eqb_spec n "Material ID") as [->|H2];
    [repeat split; simpl; intuition discriminate|].
  destruct (String.eqb_spec n "Permeability X [m^2]") as [->|H3];
    [repeat split; simpl; intuition discriminate|].
  destruct (String.eqb_spec n "SDF") as [->|H4];
    [repeat split; simpl; intuition discriminate|].
  repeat split.
  - simpl. intuition congruence.
  - apply String.eqb_neq in H1, H2, H3, H4. now rewrite H1, H2, H3, H4.
Qed.

(** X13.  The keyword dictionaries handed to the constructor do not
    reach the object: whatever they are, the object holds the same
    three dictionaries, all with the extent [(0, int(h0), int(h1), 0)]
    of its [extent_highs], and its [imshowargs] has neither [vmax] nor
    [vmin]. *)
Theorem constructor_ignores_plot_arguments (A : Type) (d : A) (n : string)
  (highs : Q * Q) (ia cfa ca ia' cfa' ca' : dict Visualization.argval) :
  let made := Visualization.__init__ d n highs ia cfa ca in
  let extent :=
    Visualization.ArgExtent 0 (Visualization.int_of_number (fst highs))
      (Visualization.int_of_number (snd highs)) 0 in
  made = Visualization.__init__ d n highs ia' cfa' ca' /\
  dict_get "extent" (Visualization.imshowargs made) = Some extent /\
  dict_get "extent" (Visualization.contourfargs made) = Some extent /\
  dict_get "extent" (Visualization.contourargs made) = Some extent /\
  dict_get "vmax" (Visualization.imshowargs made) = None /\
  dict_get "vmin" (Visualization.imshowargs made) = None.
Proof. intros made extent. repeat split. Qed.

Example pressure_caption :
  Visualization.name
    (Visualization.__init__ tt "Liquid Pressure [Pa]" (1280.5, 100)%Q
       [("vmax", Visualization.ArgNumber 16)] [] [])
  = "Pressure in [Pa]" /\
  dict_get "extent"
    (Visualization.imshowargs
       (Visualization.__init__ tt "Liquid Pressure [Pa]" (1280.5, 100)%Q
          [("vmax", Visualization.ArgNumber 16)] [] []))
  = Some (Visualization.ArgExtent 0 1280 100 0) /\
  dict_get "levels"
    (Visualization.contourargs
       (Visualization.__init__ tt "Liquid Pressure [Pa]" (1280.5, 100)%Q
          [("vmax", Visualization.ArgNumber 16)] [] []))
  = Some (Visualization.ArgLevels [(58 # 5)%Q]).
Proof. repeat split. Qed.

(** * Identifiers over a whole pass *)

Lemma Forall2_at (A B : Type) (R : A -> B -> Prop) (a0 : A) (b0 : B)
  (l1 : list A) (l2 : list B) :
  Forall2 R l1 l2 ->
  forall i, (i < List.length l1)%nat -> R (nth i l1 a0) (nth i l2 b0).
Proof.
  induction 1 as [|a b l1 l2 Hab _ IH]; intros i Hi; simpl in *; [lia|].
  destruct i as [|i]; [exact Hab | apply IH; lia].
Qed.

Lemma index_groups_in_range (self : DataLoader) (permutation : list nat) :
  1 <= batch_size self ->
  (shuffle self = true -> random_permutation (dataset_len self) permutation) ->
  forall g,
    In g (index_groups self permutation) ->
    g <> [] /\ Forall (fun i => (i < dataset_len self)%nat) g.
Proof.
  intros Hbs Hperm g Hg.
  destruct (index_groups_structure self permutation Hbs Hperm)
    as (full & rem & Hsplit & Hfull & Hgs & _ & _).
  assert (forall i, In i (index_iterator self permutation) ->
                    (i < dataset_len self)%nat) as Hrange.
  { intros i Hi.
    apply (Permutation_in _ (index_iterator_permutation self permutation Hperm))
      in Hi.
    apply in_seq in Hi. lia. }
  rewrite Hgs in Hg. apply in_app_or in Hg. destruct Hg as [Hg|Hg].
  - split.
    + rewrite Forall_forall in Hfull. specialize (Hfull g Hg).
      unfold full_group in Hfull. destruct g; [simpl in Hfull; lia | discriminate].
    + apply Forall_forall. intros i Hi. apply Hrange. rewrite Hsplit.
      apply in_or_app. left. apply in_concat. eauto.
  - unfold tail_group in Hg.
    destruct (0 <? Z.of_nat (List.length rem)) eqn:E; simpl in Hg;
      [|contradiction].
    destruct (negb (drop_last self)); simpl in Hg; [|contradiction].
    destruct Hg as [<-|[]]. split.
    + apply Z.ltb_lt in E. destruct rem; [simpl in E; lia | discriminate].
    + apply Forall_forall. intros i Hi. apply Hrange. rewrite Hsplit.
      apply in_or_app. now right.
Qed.

Lemma run_id_field_of_group (batch : list record)
  (ids : list (string * string * Z)) :
  Forall well_keyed batch ->
  batch <> [] ->
  Forall2 (fun r id =>
             dict_get "run_id" r = Some (VStr (fst (fst id) ++ "_" ++ snd (fst id)))
             /\ PyStr.decimal (snd (fst id)) = Some (snd id)) batch ids ->
  Forall (fun id => Z.abs (snd id) <= 2 ^ 53) ids ->
  forall tb,
    convert_group batch = Ok tb ->
    dict_get "run_id" tb
    = Some (mkTensor [List.length batch]
              (map (fun id => inject_Z (Torch.round_to_float32 (snd id))) ids)).
Proof.
  intros Hwk Hne Hids Hfit tb Hrun.
  destruct (present_run_ids batch ids Hids) as (Hv & Hc & Hl).
  assert (dict_get "run_id" (combine_batch_dicts batch)
          = Some (present_values "run_id" batch)) as Hget.
  { destruct batch as [|r batch']; [congruence|].
    inversion Hids as [|? id ? ? [Hr _] _]; subst.
    apply (present_in_regrouped _ "run_id" _ r Hwk (or_introl eq_refl) Hr). }
  destruct (batch_to_tensor_from_get _ [] tb _ _ Hrun
              (combine_batch_dicts_well_keyed batch) (dict_get_In _ _ _ _ Hget))
    as (t & Ht & Hlook).
  rewrite Hlook. f_equal.
  rewrite field_to_tensor_run_id, Hc in Ht. cbn [bind] in Ht.
  rewrite of_ints_rounds in Ht by (apply Forall_map; exact Hfit).
  injection Ht as <-. now rewrite length_map, map_map, Hl.
Qed.

(** X14.  Over a dataset whose records all convert and all carry an
    identifier of the form prefix, separator, digits, with a number of
    magnitude at most [2 ^ 24], which single precision holds exactly,
    a pass raises nothing, and the identifier fields of the batches it
    yields, read one after the other, are the numbers of the records in
    the order the loop grouped them; without [drop_last] that is the
    number of every record of the traversal, once, in traversal
    order. *)
Theorem identifiers_survive_the_pass (self : DataLoader) (permutation : list nat)
  (ids : list (string * string * Z)) :
  1 <= batch_size self ->
  (shuffle self = true -> random_permutation (dataset_len self) permutation) ->
  Forall well_keyed (dataset self) ->
  Forall record_converts (dataset self) ->
  Forall2 (fun r id =>
             dict_get "run_id" r = Some (VStr (fst (fst id) ++ "_" ++ snd (fst id)))
             /\ PyStr.decimal (snd (fst id)) = Some (snd id)) (dataset self) ids ->
  Forall (fun id => Z.abs (snd id) <= 2 ^ 24) ids ->
  let number i := inject_Z (snd (nth i ids ("", "", 0))) in
  let encoded tb :=
    match dict_get "run_id" tb with Some t => data t | None => [] end in
  finished (__iter__ self permutation) = true /\
  flat_map encoded (yielded (__iter__ self permutation))
  = map number (List.concat (index_groups self permutation)) /\
  (drop_last self = false ->
   flat_map encoded (yielded (__iter__ self permutation))
   = map number (index_iterator self permutation)).
Proof.
  intros Hbs Hperm Hwk Hconv Hids Hsmall number encoded.
  assert (finished (__iter__ self permutation) = true /\
          flat_map encoded (yielded (__iter__ self permutation))
          = map number (List.concat (index_groups self permutation))) as [Hfin Hflat].
  { rewrite (iter_as_groups self permutation Hperm).
    pose proof (index_groups_in_range self permutation Hbs Hperm) as Hrange.
    induction (index_groups self permutation) as [|g gs IH]; [split; reflexivity|].
    destruct (Hrange g (or_introl eq_refl)) as [Hne Hg].
    destruct IH as [IHf IHy]; [intros g' Hg'; apply Hrange; now right|].
    assert (Forall (fun r => In r (dataset self)) (records_of self g)) as Hin.
    { unfold records_of. apply Forall_forall. intros r Hr.
      apply in_map_iff in Hr. destruct Hr as (i & <- & Hi).
      rewrite Forall_forall in Hg. apply nth_In, Hg, Hi. }
    assert (Forall record_converts (records_of self g)) as Hc.
    { eapply Forall_impl; [|exact Hin]. intros r Hr.
      rewrite Forall_forall in Hconv. now apply Hconv. }
    assert (Forall well_keyed (records_of self g)) as Hw.
    { eapply Forall_impl; [|exact Hin]. intros r Hr.
      rewrite Forall_forall in Hwk. now apply Hwk. }
    destruct (convert_group_succeeds _ Hc) as (tb & Htb).
    assert (Forall (fun id => Z.abs (snd id) <= 2 ^ 24)
              (map (fun i => nth i ids ("", "", 0)) g)) as Hsmall_g.
    { apply Forall_map. eapply Forall_impl; [|exact Hg]. intros i Hi.
      simpl in Hi. rewrite Forall_forall in Hsmall. apply Hsmall, nth_In.
      unfold dataset_len in Hi. now rewrite <- (Forall2_length Hids). }
    pose proof (run_id_field_of_group (records_of self g)
                  (map (fun i => nth i ids ("", "", 0)) g) Hw) as Hfield.
    specialize (Hfield ltac:(unfold records_of; destruct g;
                               [congruence | discriminate])).
    assert (dict_get "run_id" tb
            = Some (mkTensor [List.length (records_of self g)]
                      (map (fun id => inject_Z (Torch.round_to_float32 (snd id)))
                         (map (fun i => nth i ids ("", "", 0)) g)))) as Ht.
    { apply Hfield; [| |exact Htb].
      - unfold records_of. clear - Hg Hids.
        induction Hg as [|i g Hi _ IHg]; simpl; constructor; [|exact IHg].
        apply (Forall2_at _ _ _ [] ("", "", 0) _ _ Hids i Hi).
      - eapply Forall_impl; [|exact Hsmall_g]. intros id Hid. simpl in Hid.
        change (2 ^ 24) with 16777216 in Hid. change (2 ^ 53) with 9007199254740992.
        lia. }
    simpl. rewrite Htb. unfold finished in *. simpl. split; [exact IHf|].
    rewrite IHy, map_app. f_equal.
    unfold encoded. rewrite Ht. cbn [data]. rewrite !map_map.
    rewrite Forall_map in Hsmall_g.
    clear - Hsmall_g. induction Hsmall_g as [|i g Hi _ IHg]; simpl; [reflexivity|].
    now rewrite (round_to_float32_small _ Hi), IHg. }
  split; [exact Hfin|]. split; [exact Hflat|].
  intros Hdl. rewrite Hflat. f_equal.
  destruct (index_groups_structure self permutation Hbs Hperm)
    as (full & rem & Hsplit & _ & Hgs & _ & _).
  rewrite Hgs, Hsplit, concat_app. f_equal.
  unfold tail_group. rewrite Hdl, andb_true_r.
  destruct rem; [reflexivity | simpl; now rewrite app_nil_r].
Qed.

Lemma identifiers_survive_the_pass_witness :
  let encoded tb :=
    match dict_get "run_id" tb with Some t => data t | None => [] end in
  finished (__iter__ (sample_loader false) sample_permutation) = true /\
  flat_map encoded (yielded (__iter__ (sample_loader false) sample_permutation))
  = [42%Q; 17%Q; 17%Q; 42%Q; 17%Q] /\
  (false = false ->
   flat_map encoded (yielded (__iter__ (sample_loader false) sample_permutation))
   = [42%Q; 17%Q; 17%Q; 42%Q; 17%Q]).
Proof.
  apply (identifiers_survive_the_pass (sample_loader false) sample_permutation
           [("run", "17", 17); ("sample", "042", 42); ("run", "17", 17);
            ("sample", "042", 42); ("run", "17", 17)]).
  - simpl. lia.
  - apply sample_permutation_drawn.
  - repeat constructor; simpl; intuition discriminate.
  - repeat constructor; intros key v [H|[H|[]]]; injection H as <- <-; reflexivity.
  - repeat constructor.
  - repeat constructor; simpl; lia.
Defined.

(** * Loaders of no batch *)

(** X15.  For a batch size of at least one, [__len__] lies between 0
    and the number of records, and it is 0 in two cases only: the
    dataset is empty, or [drop_last] is set and there are fewer records
    than one batch takes. *)
Theorem len_is_zero_only_without_a_batch (self : DataLoader) :
  1 <= batch_size self ->
  exists l,
    __len__ self = Ok l /\
    0 <= l <= Z.of_nat (dataset_len self) /\
    (l = 0 <->
     dataset self = [] \/
     (drop_last self = true /\ Z.of_nat (dataset_len self) < batch_size self)).
Proof.
  intros Hbs. rewrite (len_value self Hbs). eexists. split; [reflexivity|].
  assert (dataset self = [] <-> Z.of_nat (dataset_len self) = 0) as Hempty.
  { unfold dataset_len. destruct (dataset self); simpl; split;
      congruence || lia || discriminate. }
  rewrite Hempty.
  set (n := Z.of_nat (dataset_len self)) in *.
  assert (0 <= n) as Hn by (unfold n; lia).
  destruct (drop_last self).
  - pose proof (floor_spec n (batch_size self) ltac:(lia)) as Hf.
    unfold is_floor in Hf. split; [nia|].
    split; [intros H0; rewrite H0 in Hf; right; split; [reflexivity | lia]|].
    intros [H0|[_ Hlt]]; nia.
  - pose proof (ceil_spec n (batch_size self) ltac:(lia)) as Hc.
    unfold is_ceil in Hc. split; [nia|].
    split; [intros H0; rewrite H0 in Hc; left; lia|].
    intros [H0|[Hd _]]; [nia | discriminate].
Qed.

Lemma len_is_zero_only_without_a_batch_witness :
  exists l,
    __len__ (__init__ [record_17] 2 false true) = Ok l /\
    0 <= l <= 1 /\
    (l = 0 <->
     [record_17] = [] \/ (true = true /\ 1 < 2)).
Proof.
  apply (len_is_zero_only_without_a_batch (__init__ [record_17] 2 false true)).
  simpl. lia.
Defined.

(** * What the batches of a pass hold *)



Lemma stacked_field_of_group (batch : list record) (key : string)
  (ts : list Tensor) (sh : list nat) :
  String.eqb key "run_id" = false ->
  Forall well_keyed batch ->
  batch <> [] ->
  Forall2 (fun r t => dict_get key r = Some (VTensor t) /\ shape t = sh) batch ts ->
  forall tb,
    convert_group batch = Ok tb ->
    dict_get key tb
    = Some (mkTensor (List.length batch :: sh) (List.concat (map data ts))).
Proof.
  intros Hkey Hwk Hne Hall tb Hrun.
  destruct (present_tensors batch key ts sh Hall) as (Hv & Hs & Hl).
  assert (dict_get key (combine_batch_dicts batch)
          = Some (present_values key batch)) as Hget.
  { destruct batch as [|r batch']; [congruence|].
    inversion Hall as [|? t ? ? [Hr _] _]; subst.
    apply (present_in_regrouped _ key (VTensor t) r Hwk (or_introl eq_refl) Hr). }
  destruct (batch_to_tensor_from_get _ [] tb _ _ Hrun
              (combine_batch_dicts_well_keyed batch) (dict_get_In _ _ _ _ Hget))
    as (t & Ht & Hlook).
  rewrite Hlook. f_equal. rewrite Hv in Ht.
  destruct ts as [|t0 ts]; [destruct batch; [congruence | discriminate]|].
  inversion Hs as [|? ? Ht0 Hts]; subst.
  unfold field_to_tensor, stack_or_first in Ht. rewrite Hkey in Ht.
  rewrite stack_uniform in Ht.
  - simpl in Ht. injection Ht as <-. simpl. now rewrite Hl.
  - eapply Forall_impl; [|exact Hts]. intros t' Ht'. simpl in Ht'.
    now rewrite Ht'.
Qed.

(** X18.  Over a dataset whose records all convert and all hold, under
    a key other than the identifier, a tensor of one and the same
    shape, a pass raises nothing and yields one batch per index group,
    in order; under that key the batch of a group has a leading axis of
    the size of the group and holds the entries of the records of the
    group, one record after the other. *)
Theorem batches_hold_their_groups (self : DataLoader) (permutation : list nat)
  (key : string) (ts : list Tensor) (sh : list nat) :
  1 <= batch_size self ->
  (shuffle self = true -> random_permutation (dataset_len self) permutation) ->
  String.eqb key "run_id" = false ->
  Forall well_keyed (dataset self) ->
  Forall record_converts (dataset self) ->
  Forall2 (fun r t => dict_get key r = Some (VTensor t) /\ shape t = sh)
    (dataset self) ts ->
  finished (__iter__ self permutation) = true /\
  Forall2 (fun g tensor_batch =>
             dict_get key tensor_batch
             = Some (mkTensor (List.length g :: sh)
                       (flat_map (fun i => data (nth i ts (mkTensor [] []))) g)))
    (index_groups self permutation) (yielded (__iter__ self permutation)).
Proof.
  intros Hbs Hperm Hkey Hwk Hconv Hts.
  rewrite (iter_as_groups self permutation Hperm).
  pose proof (index_groups_in_range self permutation Hbs Hperm) as Hrange.
  induction (index_groups self permutation) as [|g gs IH];
    [split; [reflexivity | constructor]|].
  destruct (Hrange g (or_introl eq_refl)) as [Hne Hg].
  destruct IH as [IHf IHy]; [intros g' Hg'; apply Hrange; now right|].
  assert (Forall (fun r => In r (dataset self)) (records_of self g)) as Hin.
  { unfold records_of. apply Forall_forall. intros r Hr.
    apply in_map_iff in Hr. destruct Hr as (i & <- & Hi).
    rewrite Forall_forall in Hg. apply nth_In, Hg, Hi. }
  assert (Forall record_converts (records_of self g)) as Hc.
  { eapply Forall_impl; [|exact Hin]. intros r Hr.
    rewrite Forall_forall in Hconv. now apply Hconv. }
  assert (Forall well_keyed (records_of self g)) as Hw.
  { eapply Forall_impl; [|exact Hin]. intros r Hr.
    rewrite Forall_forall in Hwk. now apply Hwk. }
  destruct (convert_group_succeeds _ Hc) as (tb & Htb).
  assert (dict_get key tb
          = Some (mkTensor (List.length (records_of self g) :: sh)
                    (List.concat
                       (map data (map (fun i => nth i ts (mkTensor [] [])) g)))))
    as Ht.
  { apply (stacked_field_of_group (records_of self g) key _ sh Hkey Hw);
      [| |exact Htb].
    - unfold records_of. destruct g; [congruence | discriminate].
    - unfold records_of. clear - Hg Hts.
      induction Hg as [|i g Hi _ IHg]; simpl; constructor; [|exact IHg].
      apply (Forall2_at _ _ _ [] (mkTensor [] []) _ _ Hts i Hi). }
  simpl. rewrite Htb. unfold finished in *. simpl. split; [exact IHf|].
  constructor; [|exact IHy].
  rewrite Ht. unfold records_of.
  now rewrite length_map, map_map, <- flat_map_concat_map.
Qed.

Lemma batches_hold_their_groups_witness :
  finished (__iter__ (sample_loader false) sample_permutation) = true /\
  Forall2 (fun g tensor_batch =>
             dict_get "x" tensor_batch
             = Some (mkTensor (List.length g :: [3; 4]%nat)
                       (flat_map
                          (fun i => data (nth i (repeat tensor_3x4 5)
                                            (mkTensor [] []))) g)))
    (index_groups (sample_loader false) sample_permutation)
    (yielded (__iter__ (sample_loader false) sample_permutation)).
Proof.
  apply (batches_hold_their_groups (sample_loader false) sample_permutation
           "x" (repeat tensor_3x4 5) [3; 4]%nat).
  - simpl. lia.
  - apply sample_permutation_drawn.
  - reflexivity.
  - repeat constructor; simpl; intuition discriminate.
  - repeat constructor; intros key v [H|[H|[]]]; injection H as <- <-; reflexivity.
  - repeat constructor.
Defined.

(** * The identifier field, in single precision *)

Lemma identifiers_fit (batch : list record) (ids : list (string * string * Z)) :
  Forall record_converts batch ->
  Forall2 (fun r id =>
             dict_get "run_id" r = Some (VStr (fst (fst id) ++ "_" ++ snd (fst id)))
             /\ PyStr.decimal (snd (fst id)) = Some (snd id)) batch ids ->
  Forall (fun id => Z.abs (snd id) <= 2 ^ 53) ids.
Proof.
  intros Hconv Hids. revert Hconv.
  induction Hids as [|r id batch ids [Hr Hd] _ IH]; intros Hconv; constructor.
  - inversion Hconv as [|? ? Hrc _]; subst.
    specialize (Hrc "run_id" _ (dict_get_In _ _ _ _ Hr)).
    unfold value_converts in Hrc. rewrite String.eqb_refl in Hrc.
    rewrite (run_id_to_int_suffix _ _ _ Hd) in Hrc.
    now apply float32_of_int_fits.
  - apply IH. now inversion Hconv.
Qed.

(** C5, as the code has it.  When the records of a non-empty group all
    convert and have identifiers of the form prefix, separator, decimal
    digits, the group converts, and the identifier field of its batch
    is the one-dimensional tensor that holds, in record order, the
    numbers after the last separator rounded to single precision; these
    are the numbers themselves when their magnitude is at most
    [2 ^ 24].  The decimal print of any natural number is read back as
    that number, ["run_17"] is read as 17 and ["sample_042"] as 42. *)
Theorem identifiers_are_encoded (batch : list record)
  (ids : list (string * string * Z)) :
  Forall well_keyed batch ->
  batch <> [] ->
  Forall record_converts batch ->
  Forall2 (fun r id =>
             dict_get "run_id" r = Some (VStr (fst (fst id) ++ "_" ++ snd (fst id)))
             /\ PyStr.decimal (snd (fst id)) = Some (snd id)) batch ids ->
  let rounded :=
    mkTensor [List.length batch]
      (map (fun id => inject_Z (Torch.round_to_float32 (snd id))) ids) in
  (exists tensor_batch,
      convert_group batch = Ok tensor_batch /\
      dict_get "run_id" tensor_batch = Some rounded) /\
  (Forall (fun id => Z.abs (snd id) <= 2 ^ 24) ids ->
   rounded
   = mkTensor [List.length batch] (map (fun id => inject_Z (snd id)) ids)) /\
  (forall (prefix : string) (n : N),
      run_id_to_int (VStr (prefix ++ "_" ++ NilZero.string_of_uint (N.to_uint n)))
      = Ok (Z.of_N n)) /\
  run_id_to_int (VStr "run_17") = Ok 17 /\
  run_id_to_int (VStr "sample_042") = Ok 42.
Proof.
  intros Hwk Hne Hconv Hids rounded.
  split; [|split; [|split; [|split; reflexivity]]].
  - destruct (convert_group_succeeds batch Hconv) as (tb & Htb).
    exists tb. split; [exact Htb|].
    apply (run_id_field_of_group batch ids Hwk Hne Hids
             (identifiers_fit batch ids Hconv Hids) tb Htb).
  - intros Hsmall. unfold rounded. f_equal.
    clear - Hsmall. induction Hsmall as [|id ids Hid _ IH]; simpl; [reflexivity|].
    now rewrite (round_to_float32_small _ Hid), IH.
  - intros prefix n. apply run_id_to_int_suffix, decimal_of_number.
Qed.

Lemma identifiers_are_encoded_witness :
  (exists tensor_batch,
      convert_group [record_17; record_42] = Ok tensor_batch /\
      dict_get "run_id" tensor_batch = Some (mkTensor [2%nat] [17%Q; 42%Q])) /\
  (Forall (fun id : string * string * Z => Z.abs (snd id) <= 2 ^ 24)
     [("run", "17", 17); ("sample", "042", 42)] ->
   mkTensor [2%nat] [17%Q; 42%Q] = mkTensor [2%nat] [17%Q; 42%Q]) /\
  (forall (prefix : string) (n : N),
      run_id_to_int (VStr (prefix ++ "_" ++ NilZero.string_of_uint (N.to_uint n)))
      = Ok (Z.of_N n)) /\
  run_id_to_int (VStr "run_17") = Ok 17 /\
  run_id_to_int (VStr "sample_042") = Ok 42.
Proof.
  apply (identifiers_are_encoded [record_17; record_42]
           [("run", "17", 17); ("sample", "042", 42)]).
  - repeat constructor; simpl; intuition discriminate.
  - discriminate.
  - repeat constructor; intros key v [H|[H|[]]]; injection H as <- <-; reflexivity.
  - repeat constructor.
Defined.

(** C5, as stated, fails beyond the integers single precision holds:
    the identifier ["run_16777217"] is read as 16777217, and the batch
    holds 16777216 for it. *)
Lemma identifier_16777217_is_rounded :
  run_id_to_int (VStr "run_16777217") = Ok 16777217 /\
  convert_group [record_16777217]
  = Ok [("run_id", mkTensor [1%nat] [inject_Z 16777216]);
        ("x", mkTensor [1; 3; 4]%nat (repeat 1%Q 12))] /\
  inject_Z 16777216 <> inject_Z 16777217.
Proof. repeat split. discriminate. Qed.
